(** * The context lifecycle engine of the ACE framework

    A shallow embedding of [ace_framework.py] (ContextItem, ReflectionResult,
    ACEFramework) and, from [deepseek_integration.py], of
    [DeepSeekCurator.curate], of the initial knowledge of
    [SoccerPredictionAgent] and of the prompt summary and the reply parser
    of [DeepSeekGenerator], with the properties of the scoring rule, of
    the curation step, of grow-and-refine pruning, of the states an agent
    reaches and of the queries on the collection.

    Python's [float] is IEEE 754 binary64: scores, priorities and impacts
    are Rocq's primitive floats, whose operations are the binary64 ones
    (round to nearest, ties to even).  [ContextItem]s are mutable objects:
    they live in a heap and a context is a list of references.  The wall
    clock read by [datetime.now().isoformat()] is an oracle that is part of
    the world. *)

From Stdlib Require Import ZArith Floats Sorted Ascii.
From stdpp Require Import base functions list sorting strings pretty gmap.

Set Warnings "-inexact-float".

(** ** Python builtins on floats *)

Module Py.

(** [min(a, b)]: the second argument wins only when it compares [<] the
    first. *)
Definition min (a b : float) : float := if (b <? a)%float then b else a.

(** [max(a, b)]: the second argument wins only when it compares [>] the
    first. *)
Definition max (a b : float) : float := if (a <? b)%float then b else a.

(** [str(n)] of a non-negative [int], as an f-string formats it. *)
Definition str (n : nat) : string := pretty n.

(** List insertion that keeps a list ascending for [lt] and puts the new
    element in front of the elements it ties with. *)
Fixpoint insert {A} (lt : A → A → bool) (x : A) (l : list A) : list A :=
  match l with
  | [] => [x]
  | y :: l' => if lt y x then y :: insert lt x l' else x :: y :: l'
  end.

(** A stable ascending sort that, like [list.sort], only ever asks
    whether one key is [<] another. *)
Definition stable_sort {A} (lt : A → A → bool) (l : list A) : list A :=
  foldr (insert lt) [] l.

(** [sorted(l, key=key, reverse=reverse)]: with [reverse=True] the list
    is reversed, sorted ascending and reversed again, which is how
    descending order keeps ties in their original order.  For keys that
    are numbers this is the list [sorted] returns, as it is what every
    stable sort returns.  With a NaN among the keys [<] is no order and
    the list CPython returns depends on the steps of its algorithm: the
    properties below that depend on the order of the result assume that
    no key is NaN; those that hold without that assumption use only that
    the result is a permutation of [l]. *)
Definition sorted {A} (l : list A) (key : A → float) (reverse : bool)
  : list A :=
  let lt x y := (key x <? key y)%float in
  if reverse
  then list.reverse (stable_sort lt (list.reverse l))
  else stable_sort lt l.

End Py.

(** ** Data model *)

(** [Dict[str, Any]]: opaque to the engine. *)
Definition Dict : Type := list (string * string).

Module ContextItem.
Record t : Type := Build {
  id : string;
  content : string;
  category : string;
  priority : float;
  created_at : string;
  updated_at : string;
  usage_count : Z;
  effectiveness_score : float;
  metadata : Dict
}.
End ContextItem.

Record ReflectionResult : Type := {
  insights : list string;
  patterns : list Dict;
  failures : list Dict;
  recommendations : list string;
  context_gaps : list string
}.

(** ** The world: object heap and clock *)

Abbreviation loc := nat.

Record world : Type := World {
  heap : loc → ContextItem.t;  (* the object stored at each reference *)
  next_loc : loc;              (* references below it are allocated *)
  clock : nat → string;        (* the k-th reading of datetime.now().isoformat() *)
  ticks : nat                  (* number of readings taken so far *)
}.

Definition M (A : Type) : Type := world → A * world.

Global Instance M_ret : MRet M := λ A a w, (a, w).
Global Instance M_bind : MBind M := λ A B k m w, k (m w).1 (m w).2.

(** [datetime.now().isoformat()] *)
Definition now : M string :=
  λ w, (clock w (ticks w),
        World (heap w) (next_loc w) (clock w) (S (ticks w))).

(** A new object on the heap. *)
Definition alloc (it : ContextItem.t) : M loc :=
  λ w, (next_loc w,
        World (<[next_loc w := it]> (heap w)) (S (next_loc w))
              (clock w) (ticks w)).

Definition load (l : loc) : M ContextItem.t := λ w, (heap w l, w).

Definition store (l : loc) (it : ContextItem.t) : M unit :=
  λ w, (tt, World (<[l := it]> (heap w)) (next_loc w) (clock w) (ticks w)).

(** [for x in l: body(x)] *)
Fixpoint for_each {A} (l : list A) (body : A → M unit) : M unit :=
  match l with
  | [] => mret tt
  | x :: l' => body x;; for_each l' body
  end.

(** ** ContextItem *)

(** [ContextItem(id=..., content=..., category=..., priority=...)]: the
    dataclass constructor with the remaining fields at their defaults; the
    two timestamp factories run in field order. *)
Definition new_ContextItem (id content category : string) (priority : float)
  : M loc :=
  created ← now;
  updated ← now;
  alloc (ContextItem.Build id content category priority created updated
                           0%Z 0.5%float []).

Definition set_effectiveness_score (x : float) (it : ContextItem.t)
  : ContextItem.t :=
  ContextItem.Build (ContextItem.id it) (ContextItem.content it)
    (ContextItem.category it) (ContextItem.priority it)
    (ContextItem.created_at it) (ContextItem.updated_at it)
    (ContextItem.usage_count it) x (ContextItem.metadata it).

Definition set_updated_at (s : string) (it : ContextItem.t)
  : ContextItem.t :=
  ContextItem.Build (ContextItem.id it) (ContextItem.content it)
    (ContextItem.category it) (ContextItem.priority it)
    (ContextItem.created_at it) s
    (ContextItem.usage_count it) (ContextItem.effectiveness_score it)
    (ContextItem.metadata it).

(** [ContextItem.update_effectiveness(self, success, impact)] *)
Definition update_effectiveness (self : loc) (success : bool) (impact : float)
  : M unit :=
  it ← load self;
  (if success
   then store self (set_effectiveness_score
          (Py.min 1.0 (ContextItem.effectiveness_score it + impact * 0.1))%float it)
   else store self (set_effectiveness_score
          (Py.max 0.0 (ContextItem.effectiveness_score it - impact * 0.05))%float it));;
  it ← load self;
  t ← now;
  store self (set_updated_at t it).

(** [for i, x in enumerate(l): body], threading the value [s] that the
    body rebinds or mutates. *)
Fixpoint for_enumerate {A St} (i : nat) (l : list A)
    (body : nat → A → St → M St) (s : St) : M St :=
  match l with
  | [] => mret s
  | x :: l' => s' ← body i x s; for_enumerate (S i) l' body s'
  end.

(** ** Curator *)

(** The abstract base class [Curator]. *)
Record Curator : Type := {
  curate : list loc → list string → ReflectionResult → M (list loc)
}.

Module DeepSeekCurator.

(** [DeepSeekCurator.curate(self, current_context, new_insights,
    reflections)].  The list [current_context] is extended in place and
    returned: it is threaded through the two loops. *)
Definition curate (current_context : list loc) (new_insights : list string)
    (reflections : ReflectionResult) : M (list loc) :=
  current_context ←
    for_enumerate 0 new_insights (λ i insight current_context,
      new_item ← new_ContextItem
        ("insight_" +:+ Py.str (length current_context) +:+ "_" +:+ Py.str i)
        insight "insight" 0.8%float;
      mret (current_context ++ [new_item])) current_context;
  current_context ←
    for_enumerate 0 (recommendations reflections) (λ i rec current_context,
      strategy_item ← new_ContextItem
        ("strategy_" +:+ Py.str (length current_context) +:+ "_" +:+ Py.str i)
        rec "strategy" 0.7%float;
      mret (current_context ++ [strategy_item])) current_context;
  (if bool_decide (failures reflections ≠ [])
     then for_each current_context (λ context_item,
          update_effectiveness context_item false 0.5%float)
     else mret tt);;
  mret current_context.

Definition new : Curator := Build_Curator curate.

End DeepSeekCurator.

(** ** ACEFramework *)

Module ACEFramework.

(** The state of the orchestrator that the context operations use (the
    generator and the reflector play no part in them). *)
Record t : Type := Build {
  curator : Curator;
  context : list loc;
  execution_history : list Dict;
  refinement_threshold : float
}.

Definition set_context (c : list loc) (self : t) : t :=
  Build (curator self) c (execution_history self)
        (refinement_threshold self).

(** [ACEFramework.__init__] *)
Definition new (curator : Curator) : t := Build curator [] [] 0.3%float.

(** [ACEFramework.add_context_item] *)
Definition add_context_item (self : t) (item : loc) : t :=
  set_context (context self ++ [item]) self.

(** The sort key of [refine_context]:
    [lambda x: x.effectiveness_score * x.priority]. *)
Definition score_key (h : loc → ContextItem.t) (x : loc) : float :=
  (ContextItem.effectiveness_score (h x) * ContextItem.priority (h x))%float.

(** [ACEFramework.refine_context] *)
Definition refine_context (self : t) : M t :=
  λ w,
    let sorted_context := Py.sorted (context self) (score_key (heap w)) true in
    let keep_count := Nat.max 10 (length sorted_context `div` 2) in
    (set_context (take keep_count sorted_context) self, w).

(** The items [refine_context] drops: what the slice leaves behind. *)
Definition refine_discarded (self : t) (w : world) : list loc :=
  let sorted_context := Py.sorted (context self) (score_key (heap w)) true in
  let keep_count := Nat.max 10 (length sorted_context `div` 2) in
  drop keep_count sorted_context.

(** [ACEFramework.curate_context]: returns the context and the updated
    orchestrator.  The list [new_insights] is built and never used. *)
Definition curate_context (self : t) (reflections : ReflectionResult)
  : M (list loc * t) :=
  new_insights ←
    for_enumerate 0 (insights reflections) (λ i insight acc,
      x ← new_ContextItem
        ("insight_" +:+ Py.str (length (context self)) +:+ "_" +:+ Py.str i)
        insight "insight" 0.8%float;
      mret (acc ++ [x])) [];
  c ← curate (curator self) (context self) (insights reflections) reflections;
  let self := set_context c self in
  self ← (if bool_decide (20 < length (context self))
          then refine_context self
          else mret self);
  mret (context self, self).

End ACEFramework.

(** ** The order of binary64 values *)

(** A key that orders the binary64 values other than NaN: class (negative
    infinity, negative, zero, positive, positive infinity), then exponent,
    then mantissa; both zeros share one key. *)
Definition SFrank (x : spec_float) : Z * Z * Z :=
  match x with
  | S754_infinity true => (-2, 0, 0)
  | S754_finite true m e => (-1, - e, - Z.pos m)
  | S754_zero _ => (0, 0, 0)
  | S754_finite false m e => (1, e, Z.pos m)
  | S754_infinity false => (2, 0, 0)
  | S754_nan => (3, 0, 0)
  end%Z.

Definition lex_lt (a b : Z * Z * Z) : Prop :=
  (a.1.1 < b.1.1
   ∨ (a.1.1 = b.1.1 ∧ (a.1.2 < b.1.2 ∨ (a.1.2 = b.1.2 ∧ a.2 < b.2))))%Z.

(** The key of a float. *)
Definition rank (x : float) : Z * Z * Z := SFrank (Prim2SF x).

(** ** Rounding in binary64 *)

(** The exponent that binary64 gives a number of magnitude [2^e]:
    53 bits of precision, and no exponent below -1074. *)
Definition fexp64 (e : Z) : Z := Z.max (e - 53) (-1074).

(** Zero of either sign, a positive finite number or positive infinity. *)
Definition SFnonneg (x : spec_float) : Prop :=
  match x with
  | S754_zero _ | S754_finite false _ _ | S754_infinity false => True
  | _ => False
  end.

(** ** Concrete worlds used in the examples below *)

(** An item as the unit tests build it, with a given score. *)
Definition test_item (score : float) : ContextItem.t :=
  ContextItem.Build "test_2" "Test pattern" "pattern" 1.0%float
    "2024-02-10T12:00:00" "2024-02-10T12:00:00" 0%Z score [].

(** A clock whose k-th reading is one second after the previous one. *)
Definition test_clock (k : nat) : string := "2024-02-10T12:00:00+" +:+ pretty k.

(** A world with one object, at reference 0. *)
Definition test_world (score : float) : world :=
  World (λ _, test_item score) 1 test_clock 1.

(** What the spec sentence about timestamps says of one call: the
    timestamp moves exactly when the score does. *)
Definition updated_at_tracks_score (w : world) (self : loc) (success : bool)
    (impact : float) : Prop :=
  let w' := (update_effectiveness self success impact w).2 in
  ContextItem.updated_at (heap w' self) ≠ ContextItem.updated_at (heap w self)
  ↔ ContextItem.effectiveness_score (heap w' self)
    ≠ ContextItem.effectiveness_score (heap w self).

(** A reflection with one insight, one recommendation and, when [failed],
    one reported failure. *)
Definition test_reflection (failed : bool) : ReflectionResult :=
  {| insights := ["Test insight"];
     patterns := [];
     failures := if failed then [[("failure", "Ignored injury")]] else [];
     recommendations := ["Test recommendation"];
     context_gaps := [] |}.

(** Twelve objects at references 0..11, all with priority 1.0: object 0
    scores 0.1, object 11 scores 0.9 and the others 0.5. *)
Definition ranked_world : world :=
  World (λ l, test_item (if decide (l = 0) then 0.1%float
                         else if decide (l = 11) then 0.9%float
                         else 0.5%float))
        12 test_clock 0.

(** An orchestrator that holds the first [n] objects, in allocation
    order. *)
Definition ranked_engine (n : nat) : ACEFramework.t :=
  ACEFramework.Build DeepSeekCurator.new (seq 0 n) [] 0.3%float.

(** The ids of the items of a collection, in order. *)
Definition context_ids (w : world) (c : list loc) : list string :=
  (λ l, ContextItem.id (heap w l)) <$> c.

(** Twenty seed objects with ids seed_0 .. seed_19, priority 0.1 and the
    default score. *)
Definition seed_world : world :=
  World (λ l, ContextItem.Build ("seed_" +:+ pretty l) "Seed" "pattern"
                0.1%float "2024-02-10T12:00:00" "2024-02-10T12:00:00"
                0%Z 0.5%float [])
        20 test_clock 0.

Definition seed_engine : ACEFramework.t :=
  ACEFramework.Build DeepSeekCurator.new (seq 0 20) [] 0.3%float.

(** A reflection with one insight and nothing else. *)
Definition one_insight : ReflectionResult :=
  {| insights := ["Recent form matters"]; patterns := []; failures := [];
     recommendations := []; context_gaps := [] |}.

(** A reflection with ten recommendations and nothing else. *)
Definition ten_recommendations : ReflectionResult :=
  {| insights := []; patterns := []; failures := [];
     recommendations := replicate 10 "Track injuries"; context_gaps := [] |}.

(** Three learning cycles on the seeded orchestrator: one insight, ten
    recommendations, one insight. *)
Definition three_cycles : (list loc * ACEFramework.t) * world :=
  let r1 := ACEFramework.curate_context seed_engine one_insight seed_world in
  let r2 := ACEFramework.curate_context r1.1.2 ten_recommendations r1.2 in
  ACEFramework.curate_context r2.1.2 one_insight r2.2.

(** ** Auxiliary notions for the further properties *)

(** The list comprehension at the head of [curate_context], whose value is
    never used: it only allocates and reads the clock. *)
Definition unused_new_insights (self : ACEFramework.t)
    (reflections : ReflectionResult) : M (list loc) :=
  for_enumerate 0 (insights reflections) (λ i insight acc,
    x ← new_ContextItem
      ("insight_" +:+ Py.str (length (ACEFramework.context self)) +:+ "_"
         +:+ Py.str i)
      insight "insight" 0.8%float;
    mret (acc ++ [x])) [].

(** Two snapshots of an object agree on every field other than
    [effectiveness_score] and [updated_at]. *)
Definition same_static (a b : ContextItem.t) : Prop :=
  ContextItem.id a = ContextItem.id b
  ∧ ContextItem.content a = ContextItem.content b
  ∧ ContextItem.category a = ContextItem.category b
  ∧ ContextItem.priority a = ContextItem.priority b
  ∧ ContextItem.created_at a = ContextItem.created_at b
  ∧ ContextItem.usage_count a = ContextItem.usage_count b
  ∧ ContextItem.metadata a = ContextItem.metadata b.

(** A score between 0.0 and 1.0. *)
Definition in_unit_range (x : float) : Prop :=
  (0 <=? x)%float = true ∧ (x <=? 1)%float = true.

(** An orchestrator built around [DeepSeekCurator]. *)
Definition deepseek_engine (context : list loc) (history : list Dict)
  : ACEFramework.t :=
  ACEFramework.Build DeepSeekCurator.new context history 0.3%float.

(** ** The rest of the orchestrator *)

(** The abstract base classes [Generator] and [Reflector]; an orchestrator
    holds one of each next to its curator. *)
Record Generator : Type := {
  generate : string → list loc → M (list string)
}.

Record Reflector : Type := {
  reflect : Dict → list loc → M ReflectionResult
}.

(** [ACEFramework.get_context_by_category] *)
Definition get_context_by_category (self : ACEFramework.t) (category : string)
  : M (list loc) :=
  λ w, (filter (λ item, ContextItem.category (heap w item) = category)
          (ACEFramework.context self), w).

(** [ACEFramework.generate_strategies] *)
Definition generate_strategies (generator : Generator) (self : ACEFramework.t)
    (task : string) : M (list string) :=
  generate generator task (ACEFramework.context self).

(** [ACEFramework.reflect_on_execution]: returns the reflection and the
    updated orchestrator. *)
Definition reflect_on_execution (reflector : Reflector) (self : ACEFramework.t)
    (execution_trace : Dict) : M (ReflectionResult * ACEFramework.t) :=
  let self :=
    ACEFramework.Build (ACEFramework.curator self) (ACEFramework.context self)
      (ACEFramework.execution_history self ++ [execution_trace])
      (ACEFramework.refinement_threshold self) in
  reflections ← reflect reflector execution_trace (ACEFramework.context self);
  mret (reflections, self).

(** [ContextItem.to_dict]: [asdict] copies the nine fields into a dict,
    here the record of their values at the time of the call. *)
Definition to_dict (self : loc) : M ContextItem.t := load self.

(** The dict that [get_context_state] returns. *)
Record ContextState : Type := {
  total_items : nat;
  by_category : gmap string nat;
  items : list ContextItem.t;
  execution_history_count : nat
}.

(** [ACEFramework.get_context_state]: the categories are collected in a
    set, so the dict of counts has one entry per category that occurs. *)
Definition get_context_state (self : ACEFramework.t) : M ContextState :=
  λ w,
    ({| total_items := length (ACEFramework.context self);
        by_category :=
          list_to_map
            ((λ cat, (cat, length (get_context_by_category self cat w).1))
               <$> elements
                     (list_to_set
                        ((λ item, ContextItem.category (heap w item))
                           <$> ACEFramework.context self) : gset string));
        items := (λ item, (to_dict item w).1) <$> ACEFramework.context self;
        execution_history_count :=
          length (ACEFramework.execution_history self) |}, w).


(** ** The agent *)

(** [ContextItem(id=..., content=..., category=..., priority=...,
    effectiveness_score=...)] *)
Definition new_ContextItem_scored (id content category : string)
    (priority effectiveness_score : float) : M loc :=
  created ← now;
  updated ← now;
  alloc (ContextItem.Build id content category priority created updated
                           0%Z effectiveness_score []).

Module SoccerPredictionAgent.

(** [SoccerPredictionAgent._initialize_context]: the four baseline items
    are built in order and added one by one. *)
Definition _initialize_context (ace : ACEFramework.t) : M ACEFramework.t :=
  b1 ← new_ContextItem_scored "baseline_1"
         "Home advantage typically provides 3-5% win probability increase"
         "pattern" 0.9%float 0.85%float;
  b2 ← new_ContextItem_scored "baseline_2"
         "Recent form (last 5 matches) is highly predictive of next outcome"
         "pattern" 0.9%float 0.82%float;
  b3 ← new_ContextItem_scored "baseline_3"
         "Team strength ratings (offensive/defensive) should be normalized by opponents faced"
         "strategy" 0.8%float 0.78%float;
  b4 ← new_ContextItem_scored "baseline_4"
         "Injuries to key players significantly impact prediction accuracy"
         "pattern" 0.85%float 0.80%float;
  let baseline_knowledge := [b1; b2; b3; b4] in
  mret (foldl ACEFramework.add_context_item ace baseline_knowledge).

(** [SoccerPredictionAgent.__init__]: the orchestrator of a new agent.
    Its curator is a [DeepSeekCurator]; the generator and the reflector,
    which talk to the DeepSeek service, stay outside. *)
Definition new : M ACEFramework.t :=
  _initialize_context (ACEFramework.new DeepSeekCurator.new).

End SoccerPredictionAgent.

(** The states of an agent's orchestrator after [n] calls of
    [record_outcome], with any number of [predict_match] calls in
    between: of [predict_match] the orchestrator sees
    [generate_strategies], of [record_outcome] it sees
    [reflect_on_execution] followed by [curate_context] on the
    reflection. *)
Inductive agent_state (generator : Generator) (reflector : Reflector)
    (w0 : world) : nat → ACEFramework.t → world → Prop :=
  | agent_init :
      agent_state generator reflector w0 0
        (SoccerPredictionAgent.new w0).1 (SoccerPredictionAgent.new w0).2
  | agent_predict_match n ace w task :
      agent_state generator reflector w0 n ace w →
      agent_state generator reflector w0 n ace
        (generate_strategies generator ace task w).2
  | agent_record_outcome n ace w execution_trace :
      agent_state generator reflector w0 n ace w →
      agent_state generator reflector w0 (S n)
        (ACEFramework.curate_context
           (reflect_on_execution reflector ace execution_trace w).1.2
           (reflect_on_execution reflector ace execution_trace w).1.1
           (reflect_on_execution reflector ace execution_trace w).2).1.2
        (ACEFramework.curate_context
           (reflect_on_execution reflector ace execution_trace w).1.2
           (reflect_on_execution reflector ace execution_trace w).1.1
           (reflect_on_execution reflector ace execution_trace w).2).2.

(** The test doubles of the unit tests. *)
Definition MockGenerator : Generator :=
  {| generate _ _ := mret ["Strategy 1"; "Strategy 2"] |}.

Definition MockReflector : Reflector :=
  {| reflect _ _ :=
       mret {| insights := ["Test insight"]; patterns := [];
               failures := []; recommendations := ["Test recommendation"];
               context_gaps := [] |} |}.


(** An orchestrator with a [DeepSeekCurator] whose collection lists
    distinct allocated objects with scores in [0.0, 1.0]. *)
Definition well_formed (ace : ACEFramework.t) (w : world) : Prop :=
  ace = deepseek_engine (ACEFramework.context ace)
          (ACEFramework.execution_history ace)
  ∧ NoDup (ACEFramework.context ace)
  ∧ ∀ l, l ∈ ACEFramework.context ace →
      l < next_loc w
      ∧ in_unit_range (ContextItem.effectiveness_score (heap w l)).


(** The character [c] occurs in [s]. *)
Fixpoint occurs (c : ascii) (s : string) : Prop :=
  match s with
  | EmptyString => False
  | String c' s' => c' = c ∨ occurs c s'
  end.


(** ** The generator's prompt summary and reply parser *)

(** A Python [dict] with string keys: an association list in insertion
    order, each key once. *)
Module PyDict.

Definition t (V : Type) : Type := list (string * V).

(** [k in d] *)
Definition contains {V} (k : string) (d : t V) : bool :=
  bool_decide (k ∈ d.*1).

(** [d[k]]; [None] stands for [KeyError]. *)
Fixpoint get {V} (k : string) (d : t V) : option V :=
  match d with
  | [] => None
  | (k', v) :: d' => if decide (k' = k) then Some v else get k d'
  end.

(** [d[k] = v]: a present key keeps its place, a new key goes last. *)
Fixpoint set {V} (k : string) (v : V) (d : t V) : t V :=
  match d with
  | [] => [(k, v)]
  | (k', v') :: d' =>
      if decide (k' = k) then (k', v) :: d' else (k', v') :: set k v d'
  end.

End PyDict.

(** The string methods the reply parser uses. *)
Module PyStr.

(** [s.find(c)] for a one-character [c]: the lowest index of [c] in [s],
    or -1. *)
Fixpoint find (c : ascii) (s : string) : Z :=
  match s with
  | EmptyString => -1
  | String c' s' =>
      if decide (c' = c) then 0
      else let r := find c s' in if decide (r = -1) then -1 else r + 1
  end%Z.

(** [s.rfind(c)] for a one-character [c]: the highest index, or -1. *)
Fixpoint rfind (c : ascii) (s : string) : Z :=
  match s with
  | EmptyString => -1
  | String c' s' =>
      let r := rfind c s' in
      if decide (r = -1) then (if decide (c' = c) then 0 else -1) else r + 1
  end%Z.

(** [s[start:stop]] for indices that are not negative. *)
Definition slice (s : string) (start stop : Z) : string :=
  String.substring (Z.to_nat start) (Z.to_nat (stop - start)) s.

End PyStr.

(** The line feed. *)
Definition nl : string := String "010" "".

Module DeepSeekGenerator.

(** The first loop of [_build_context_summary]: the dict [categories]
    after the loop.  The lookup after the membership test cannot fail. *)
Definition categories_of (context : list loc) (w : world)
  : PyDict.t (list string) :=
  foldl (λ categories item,
    let category := ContextItem.category (heap w item) in
    let categories :=
      if PyDict.contains category categories then categories
      else PyDict.set category [] categories in
    match PyDict.get category categories with
    | Some items =>
        PyDict.set category (items ++ [ContextItem.content (heap w item)])
          categories
    | None => categories
    end) [] context.

(** [DeepSeekGenerator._build_context_summary]; [upper] is [str.upper]. *)
Definition _build_context_summary (upper : string → string)
    (context : list loc) : M string :=
  λ w,
    if bool_decide (context = [])
    then ("No prior knowledge available. Starting fresh.", w)
    else
      let categories := categories_of context w in
      let summary := "Previous Learnings:" +:+ nl in
      (foldl (λ summary '(category, items),
         foldl (λ summary item, summary +:+ "  - " +:+ item +:+ nl)
           (summary +:+ nl +:+ upper category +:+ ":" +:+ nl)
           (take 5 items)) summary categories, w).

Section parse_json_response.
(** The values [json.loads] returns, with [json.loads] itself ([None]
    when it raises), the test [isinstance(data, list)] as the view of a
    value as a list, and [str]. *)
Context {Any : Type}.
Context (json_loads : string → option Any).
Context (as_list : Any → option (list Any)).
Context (str : Any → string).

(** [DeepSeekGenerator._parse_json_response]; [None] when [json.loads]
    raises. *)
Definition _parse_json_response (response : string) : option (list string) :=
  let start := PyStr.find "[" response in
  let end_ := (PyStr.rfind "]" response + 1)%Z in
  if bool_decide (0 ≤ start)%Z && bool_decide (start < end_)%Z then
    let json_str := PyStr.slice response start end_ in
    data ← json_loads json_str;
    match as_list data with
    | Some items => Some (str <$> items)
    | None => Some []
    end
  else Some [].

End parse_json_response.

End DeepSeekGenerator.

(** The elements of a list in the order in which they first occur. *)
Definition first_occurrences {A} `{EqDecision A} (l : list A) : list A :=
  reverse (remove_dups (reverse l)).

(** * Properties *)

(** ** The builtins on small inputs *)

Example min_max_examples :
  Py.min 1.0 1.5 = 1.0%float ∧ Py.min 1.0 0.6 = 0.6%float
  ∧ Py.max 0.0 (-0.05) = 0.0%float ∧ Py.max 0.0 0.45 = 0.45%float
  ∧ Py.min 1.0 nan = 1.0%float ∧ Py.max 0.0 nan = 0.0%float.
Proof. by vm_compute. Qed.

(** Descending order, ties in their original order. *)
Example sorted_example :
  Py.sorted [(1, 0.5); (2, 0.9); (3, 0.5); (4, 0.1); (5, 0.9)]%float snd true
  = [(2, 0.9); (5, 0.9); (1, 0.5); (3, 0.5); (4, 0.1)]%float.
Proof. by vm_compute. Qed.

Example str_example : Py.str 0 = "0" ∧ Py.str 20 = "20" ∧ Py.str 107 = "107".
Proof. by vm_compute. Qed.

(** ** The effectiveness update *)

Lemma update_effectiveness_heap self success impact w l :
  heap (update_effectiveness self success impact w).2 l =
    if decide (self = l)
    then set_updated_at (clock w (ticks w))
           (set_effectiveness_score
              (if success
               then Py.min 1.0 (ContextItem.effectiveness_score (heap w self) + impact * 0.1)
               else Py.max 0.0 (ContextItem.effectiveness_score (heap w self) - impact * 0.05))%float
              (heap w self))
    else heap w l.
Proof.
  unfold update_effectiveness, mbind, M_bind, load, store, now.
  destruct success; simpl; unfold insert, fn_insert;
    repeat case_decide; congruence.
Qed.

Lemma update_effectiveness_frame self success impact w :
  next_loc (update_effectiveness self success impact w).2 = next_loc w
  ∧ clock (update_effectiveness self success impact w).2 = clock w
  ∧ ticks (update_effectiveness self success impact w).2 = S (ticks w).
Proof.
  unfold update_effectiveness, mbind, M_bind, load, store, now.
  by destruct success.
Qed.

(** C1: a success update stores [min(1.0, s + impact * 0.1)] and a failure
    update stores [max(0.0, s - impact * 0.05)], where [s] is the score
    before the call; the reward coefficient is twice the penalty
    coefficient. *)
Theorem update_effectiveness_score self impact w :
  let s := ContextItem.effectiveness_score (heap w self) in
  ContextItem.effectiveness_score
    (heap (update_effectiveness self true impact w).2 self)
    = Py.min 1.0 (s + impact * 0.1)%float
  ∧ ContextItem.effectiveness_score
      (heap (update_effectiveness self false impact w).2 self)
    = Py.max 0.0 (s - impact * 0.05)%float
  ∧ (0.1 = 2 * 0.05)%float.
Proof.
  intros s. rewrite !update_effectiveness_heap, !decide_True by done.
  by split_and!.
Qed.

(** C7 (as stated, refuted): from 0.5, a success and then a failure of
    impact 1.0 do not yield 0.6 and then 0.55: the second score is the
    float that Python prints as 0.5499999999999999, and
    [0.6 - 1.0 * 0.05 == 0.55] is [False]. *)
Lemma two_updates_not_0_55 :
  let w1 := (update_effectiveness 0 true 1.0 (test_world 0.5)).2 in
  let w2 := (update_effectiveness 0 false 1.0 w1).2 in
  ¬ (ContextItem.effectiveness_score (heap w1 0) = 0.6%float
     ∧ ContextItem.effectiveness_score (heap w2 0) = 0.55%float).
Proof.
  intros w1 w2 [_ H]. vm_compute in H.
  apply (f_equal (λ x, x =? 0.55)%float) in H. vm_compute in H. discriminate.
Qed.

(** C7 (amended): from 0.5, a success of impact 1.0 yields exactly 0.6; a
    subsequent failure of impact 1.0 yields 0.5499999999999999, the binary64
    result of 0.6 - 0.05, which is not equal to the float 0.55. *)
Theorem two_updates_from_half self w :
  ContextItem.effectiveness_score (heap w self) = 0.5%float →
  let w1 := (update_effectiveness self true 1.0 w).2 in
  let w2 := (update_effectiveness self false 1.0 w1).2 in
  ContextItem.effectiveness_score (heap w1 self) = 0.6%float
  ∧ ContextItem.effectiveness_score (heap w2 self) = 0.5499999999999999%float
  ∧ (0.5499999999999999 =? 0.55)%float = false.
Proof.
  intros Hs w1 w2. subst w1 w2.
  rewrite !update_effectiveness_heap, !decide_True by done. simpl.
  rewrite Hs. by vm_compute.
Qed.

Lemma two_updates_from_half_witness :
  ContextItem.effectiveness_score (heap (test_world 0.5) 0) = 0.5%float
  ∧ ContextItem.effectiveness_score
      (heap (update_effectiveness 0 false 1.0
               (update_effectiveness 0 true 1.0 (test_world 0.5)).2).2 0)
    = 0.5499999999999999%float.
Proof.
  split; [reflexivity|].
  exact (proj1 (proj2 (two_updates_from_half 0 (test_world 0.5) eq_refl))).
Defined.

(** C9 (as stated, refuted): a failure update of an item whose score is
    already 0.0 leaves the score at 0.0 and still refreshes [updated_at]. *)
Lemma updated_at_refreshed_without_score_change :
  ¬ updated_at_tracks_score (test_world 0.0) 0 false 1.0.
Proof.
  intros [H _]. apply H; [by vm_compute|by vm_compute].
Qed.

(** C9 (amended): every call refreshes [updated_at] to the current clock
    reading, whether or not the score changes; apart from [updated_at] and
    [effectiveness_score] no field of the item is modified, and no other
    object is touched. *)
Theorem update_effectiveness_fields self success impact w :
  let w' := (update_effectiveness self success impact w).2 in
  ContextItem.updated_at (heap w' self) = clock w (ticks w)
  ∧ ContextItem.id (heap w' self) = ContextItem.id (heap w self)
  ∧ ContextItem.content (heap w' self) = ContextItem.content (heap w self)
  ∧ ContextItem.category (heap w' self) = ContextItem.category (heap w self)
  ∧ ContextItem.priority (heap w' self) = ContextItem.priority (heap w self)
  ∧ ContextItem.created_at (heap w' self) = ContextItem.created_at (heap w self)
  ∧ ContextItem.usage_count (heap w' self) = ContextItem.usage_count (heap w self)
  ∧ ContextItem.metadata (heap w' self) = ContextItem.metadata (heap w self)
  ∧ ∀ l, l ≠ self → heap w' l = heap w l.
Proof.
  intros w'. subst w'. rewrite update_effectiveness_heap, decide_True by done.
  split_and!; try done.
  intros l Hl. by rewrite update_effectiveness_heap, decide_False.
Qed.

(** ** The curation step *)

Section add_items.
Context (prefix category : string) (priority : float).

(** The body shared by the two appending loops of [curate]. *)
Let body : nat → string → list loc → M (list loc) :=
  λ i x current_context,
    new_item ← new_ContextItem
      (prefix +:+ Py.str (length current_context) +:+ "_" +:+ Py.str i)
      x category priority;
    mret (current_context ++ [new_item]).

Lemma add_items_spec l : ∀ i current_context w,
  let r := for_enumerate i l body current_context w in
  r.1 = current_context ++ seq (next_loc w) (length l)
  ∧ next_loc r.2 = next_loc w + length l
  ∧ clock r.2 = clock w
  ∧ ticks r.2 = ticks w + 2 * length l
  ∧ (∀ l', l' < next_loc w → heap r.2 l' = heap w l')
  ∧ (∀ k x, l !! k = Some x →
       heap r.2 (next_loc w + k) =
         ContextItem.Build
           (prefix +:+ Py.str (length current_context + k) +:+ "_"
              +:+ Py.str (i + k))
           x category priority
           (clock w (ticks w + 2 * k)) (clock w (S (ticks w + 2 * k)))
           0%Z 0.5%float []).
Proof.
  induction l as [|x l IH]; intros i ctx w.
  - simpl. rewrite app_nil_r. split_and!; try done; lia.
  - set (w1 := (body i x ctx w).2).
    assert (Hstep : for_enumerate i (x :: l) body ctx w
                    = for_enumerate (S i) l body (ctx ++ [next_loc w]) w1)
      by done.
    intros r. subst r. rewrite Hstep.
    destruct (IH (S i) (ctx ++ [next_loc w]) w1)
      as (Hr & Hn & Hc & Ht & Hold & Hnew).
    change (next_loc w1) with (S (next_loc w)) in *.
    change (clock w1) with (clock w) in *.
    change (ticks w1) with (S (S (ticks w))) in *.
    split_and!.
    + rewrite Hr, <- app_assoc. done.
    + rewrite Hn. simpl. lia.
    + done.
    + rewrite Ht. simpl. lia.
    + intros l' Hl'. rewrite Hold by lia.
      simpl. unfold insert, fn_insert. rewrite decide_False by lia. done.
    + intros [|k] y Hy; simpl in Hy.
      * injection Hy as ->. rewrite Nat.add_0_r, Hold by lia. simpl.
        unfold insert, fn_insert. rewrite decide_True by done.
        by rewrite !Nat.add_0_r.
      * replace (next_loc w + S k) with (S (next_loc w) + k) by lia.
        rewrite (Hnew k y Hy), length_app. simpl.
        replace (length ctx + 1 + k) with (length ctx + S k) by lia.
        replace (S (i + k)) with (i + S k) by lia.
        replace (S (S (ticks w + (k + (k + 0))))) with (ticks w + 2 * S k) by lia.
        done.
Qed.
End add_items.

Lemma penalise_all_spec current_context : ∀ w,
  NoDup current_context →
  let w' := (for_each current_context
               (λ context_item, update_effectiveness context_item false 0.5) w).2 in
  next_loc w' = next_loc w
  ∧ clock w' = clock w
  ∧ ticks w' = ticks w + length current_context
  ∧ (∀ l, l ∉ current_context → heap w' l = heap w l)
  ∧ (∀ k l, current_context !! k = Some l →
       heap w' l =
         set_updated_at (clock w (ticks w + k))
           (set_effectiveness_score
              (Py.max 0.0 (ContextItem.effectiveness_score (heap w l) - 0.025))%float
              (heap w l))).
Proof.
  induction current_context as [|c ctx IH]; intros w Hnd.
  - simpl. split_and!; try done; lia.
  - apply NoDup_cons in Hnd as [Hc Hnd].
    set (w1 := (update_effectiveness c false 0.5 w).2).
    assert (Hstep : (for_each (c :: ctx)
               (λ context_item, update_effectiveness context_item false 0.5) w).2
             = (for_each ctx
               (λ context_item, update_effectiveness context_item false 0.5) w1).2)
      by done.
    intros w'. subst w'. rewrite Hstep.
    destruct (IH w1 Hnd) as (Hn & Hcl & Ht & Hout & Hin).
    destruct (update_effectiveness_frame c false 0.5 w) as (Hn1 & Hc1 & Ht1).
    fold w1 in Hn1, Hc1, Ht1.
    assert (Hc0 : heap w1 c =
      set_updated_at (clock w (ticks w))
        (set_effectiveness_score
           (Py.max 0.0 (ContextItem.effectiveness_score (heap w c) - 0.025))%float
           (heap w c))).
    { unfold w1. by rewrite update_effectiveness_heap, decide_True. }
    split_and!.
    + congruence.
    + congruence.
    + rewrite Ht, Ht1. simpl. lia.
    + intros l Hl. apply not_elem_of_cons in Hl as [Hlc Hl].
      rewrite Hout by done. unfold w1.
      by rewrite update_effectiveness_heap, decide_False.
    + intros [|k] l Hl; simpl in Hl.
      * injection Hl as <-. rewrite Hout by done. by rewrite Hc0, Nat.add_0_r.
      * assert (l ≠ c) by (intros ->; apply Hc; by eapply list_elem_of_lookup_2).
        rewrite (Hin k l Hl), Hc1, Ht1.
        assert (Hl1 : heap w1 l = heap w l).
        { unfold w1. by rewrite update_effectiveness_heap, decide_False. }
        rewrite Hl1. by replace (S (ticks w) + k) with (ticks w + S k) by lia.
Qed.

Lemma curate_unfold current_context new_insights reflections w :
  let r1 := for_enumerate 0 new_insights (λ i insight current_context,
        new_item ← new_ContextItem
          ("insight_" +:+ Py.str (length current_context) +:+ "_" +:+ Py.str i)
          insight "insight" 0.8%float;
        mret (current_context ++ [new_item])) current_context w in
  let r2 := for_enumerate 0 (recommendations reflections) (λ i rec current_context,
        strategy_item ← new_ContextItem
          ("strategy_" +:+ Py.str (length current_context) +:+ "_" +:+ Py.str i)
          rec "strategy" 0.7%float;
        mret (current_context ++ [strategy_item])) r1.1 r1.2 in
  DeepSeekCurator.curate current_context new_insights reflections w =
    (r2.1,
     if bool_decide (failures reflections ≠ [])
     then (for_each r2.1 (λ context_item,
             update_effectiveness context_item false 0.5) r2.2).2
     else r2.2).
Proof.
  intros r1 r2. unfold DeepSeekCurator.curate, mbind, M_bind. fold r1. fold r2.
  by case_bool_decide.
Qed.

Lemma fresh_refs_distinct (current_context : list loc) (a n k : nat) :
  NoDup current_context →
  (∀ l, l ∈ current_context → l < a) →
  NoDup (current_context ++ seq a n ++ seq (a + n) k).
Proof.
  intros Hnd Halloc. apply NoDup_app. split_and!; [done| |].
  - intros l Hl Hl'. apply Halloc in Hl.
    apply elem_of_app in Hl' as [Hl'|Hl']; apply elem_of_seq in Hl'; lia.
  - apply NoDup_app. split_and!; [apply NoDup_seq| |apply NoDup_seq].
    intros l Hl Hl'. apply elem_of_seq in Hl, Hl'. lia.
Qed.

Lemma for_each_update_next_loc (l : list loc) success impact : ∀ w,
  next_loc (for_each l (λ context_item,
              update_effectiveness context_item success impact) w).2
  = next_loc w.
Proof.
  induction l as [|c l IH]; intros w; [done|].
  change (next_loc (for_each l (λ context_item,
            update_effectiveness context_item success impact)
            (update_effectiveness c success impact w).2).2 = next_loc w).
  rewrite IH. apply update_effectiveness_frame.
Qed.

(** What [curate] returns, and how far it allocates. *)
Lemma curate_result current_context new_insights reflections w :
  (DeepSeekCurator.curate current_context new_insights reflections w).1
  = current_context ++ seq (next_loc w) (length new_insights)
      ++ seq (next_loc w + length new_insights)
             (length (recommendations reflections))
  ∧ next_loc (DeepSeekCurator.curate current_context new_insights
                reflections w).2
    = next_loc w + length new_insights + length (recommendations reflections).
Proof.
  rewrite curate_unfold.
  set (r1 := for_enumerate 0 new_insights _ current_context w).
  set (r2 := for_enumerate 0 (recommendations reflections) _ r1.1 r1.2).
  destruct (add_items_spec "insight_" "insight" 0.8%float new_insights 0
              current_context w) as (Hl1 & Hn1 & _).
  fold r1 in Hl1, Hn1.
  destruct (add_items_spec "strategy_" "strategy" 0.7%float
              (recommendations reflections) 0 r1.1 r1.2) as (Hl2 & Hn2 & _).
  fold r2 in Hl2, Hn2.
  rewrite Hn1 in Hl2, Hn2. rewrite Hl1, <- app_assoc in Hl2.
  split; [done|]. cbn [snd].
  case_bool_decide; [|done]. by rewrite for_each_update_next_loc.
Qed.

(** A collection of distinct allocated objects stays one under [curate]:
    the objects it appends are new. *)
Lemma curate_keeps_distinct current_context new_insights reflections w :
  NoDup current_context →
  (∀ l, l ∈ current_context → l < next_loc w) →
  let r := DeepSeekCurator.curate current_context new_insights reflections w in
  NoDup r.1 ∧ ∀ l, l ∈ r.1 → l < next_loc r.2.
Proof.
  intros Hnd Halloc r.
  destruct (curate_result current_context new_insights reflections w)
    as [Hr Hn].
  fold r in Hr, Hn. rewrite Hr, Hn. split.
  - by apply fresh_refs_distinct.
  - intros l. rewrite !elem_of_app, !elem_of_seq.
    intros [Hl|[Hl|Hl]]; [apply Halloc in Hl|..]; lia.
Qed.

(** C2 (as stated, refuted): the claim speaks of every collection, but an
    item that the collection lists twice is penalised twice.  On the
    collection [[item0, item0]] with one reported failure, item0 goes from
    0.5 to [max(0.0, max(0.0, 0.5 - 0.025) - 0.025)], which Python prints
    as 0.44999999999999996, and not to [max(0.0, 0.5 - 0.025)]. *)
Lemma curate_penalises_a_repeated_item_twice :
  let w := test_world 0.5 in
  let r := DeepSeekCurator.curate [0; 0] [] (test_reflection true) w in
  r.1 = [0; 0; 1]
  ∧ ContextItem.effectiveness_score (heap r.2 0)
    = Py.max 0.0 (Py.max 0.0 (0.5 - 0.025) - 0.025)%float
  ∧ ContextItem.effectiveness_score (heap r.2 0) = 0.44999999999999996%float
  ∧ ¬ (ContextItem.effectiveness_score (heap r.2 0)
       = Py.max 0.0 (ContextItem.effectiveness_score (heap w 0) - 0.025)%float).
Proof.
  intros w r. split_and!; [by vm_compute..|].
  intros H. vm_compute in H.
  apply (f_equal (λ x, x =? 0.475)%float) in H. vm_compute in H. discriminate.
Qed.

(** C2 (amended): for a collection of pairwise distinct allocated items,
    [curate] returns the input collection followed by one fresh item
    per insight (category "insight", priority 0.8) and then one per
    recommendation (category "strategy", priority 0.7), all created with
    effectiveness 0.5.  When the reflection reports a failure every item of
    the result, the new ones included, has its score replaced by
    [max(0.0, score - 0.025)]; when it reports none, the items that were
    already there are left as they were and the new ones keep 0.5.  The
    collection holds distinct, allocated objects. *)
Theorem curate_appends_then_penalises current_context new_insights reflections w :
  NoDup current_context →
  (∀ l, l ∈ current_context → l < next_loc w) →
  let r := DeepSeekCurator.curate current_context new_insights reflections w in
  let a := next_loc w in
  let n := length new_insights in
  let after (s : float) : float :=
    if bool_decide (failures reflections ≠ [])
    then Py.max 0.0 (s - 0.025)%float else s in
  r.1 = current_context ++ seq a n
          ++ seq (a + n) (length (recommendations reflections))
  ∧ (∀ k insight, new_insights !! k = Some insight →
       ContextItem.content (heap r.2 (a + k)) = insight
       ∧ ContextItem.category (heap r.2 (a + k)) = "insight"
       ∧ ContextItem.priority (heap r.2 (a + k)) = 0.8%float
       ∧ ContextItem.effectiveness_score (heap r.2 (a + k)) = after 0.5%float)
  ∧ (∀ k rec, recommendations reflections !! k = Some rec →
       ContextItem.content (heap r.2 (a + n + k)) = rec
       ∧ ContextItem.category (heap r.2 (a + n + k)) = "strategy"
       ∧ ContextItem.priority (heap r.2 (a + n + k)) = 0.7%float
       ∧ ContextItem.effectiveness_score (heap r.2 (a + n + k)) = after 0.5%float)
  ∧ (∀ l, l ∈ current_context →
       ContextItem.effectiveness_score (heap r.2 l)
         = after (ContextItem.effectiveness_score (heap w l))
       ∧ ContextItem.id (heap r.2 l) = ContextItem.id (heap w l)
       ∧ ContextItem.content (heap r.2 l) = ContextItem.content (heap w l)
       ∧ ContextItem.category (heap r.2 l) = ContextItem.category (heap w l)
       ∧ ContextItem.priority (heap r.2 l) = ContextItem.priority (heap w l))
  ∧ (failures reflections = [] →
       ∀ l, l ∈ current_context → heap r.2 l = heap w l).
Proof.
  intros Hnd Halloc r a n after. subst r.
  rewrite curate_unfold.
  set (r1 := for_enumerate 0 new_insights _ current_context w).
  set (r2 := for_enumerate 0 (recommendations reflections) _ r1.1 r1.2).
  destruct (add_items_spec "insight_" "insight" 0.8%float new_insights 0
              current_context w) as (Hl1 & Hn1 & Hc1 & Ht1 & Hold1 & Hnew1).
  fold r1 in Hl1, Hn1, Hc1, Ht1, Hold1, Hnew1.
  destruct (add_items_spec "strategy_" "strategy" 0.7%float
              (recommendations reflections) 0 r1.1 r1.2)
    as (Hl2 & Hn2 & Hc2 & Ht2 & Hold2 & Hnew2).
  fold r2 in Hl2, Hn2, Hc2, Ht2, Hold2, Hnew2.
  fold a n in Hl1, Hn1, Hnew1. rewrite Hn1 in Hl2, Hold2, Hnew2.
  rewrite Hl1, <- app_assoc in Hl2.
  assert (Hold : ∀ l, l ∈ current_context → heap r2.2 l = heap w l).
  { intros l Hl. apply Halloc in Hl. fold a in Hl.
    rewrite Hold2, Hold1 by lia. done. }
  assert (Hins : ∀ k insight, new_insights !! k = Some insight →
            ContextItem.content (heap r2.2 (a + k)) = insight
            ∧ ContextItem.category (heap r2.2 (a + k)) = "insight"
            ∧ ContextItem.priority (heap r2.2 (a + k)) = 0.8%float
            ∧ ContextItem.effectiveness_score (heap r2.2 (a + k)) = 0.5%float).
  { intros k x Hk. apply lookup_lt_Some in Hk as Hlt. fold n in Hlt.
    rewrite Hold2, (Hnew1 k x Hk) by lia. done. }
  assert (Hrec : ∀ k rec, recommendations reflections !! k = Some rec →
            ContextItem.content (heap r2.2 (a + n + k)) = rec
            ∧ ContextItem.category (heap r2.2 (a + n + k)) = "strategy"
            ∧ ContextItem.priority (heap r2.2 (a + n + k)) = 0.7%float
            ∧ ContextItem.effectiveness_score (heap r2.2 (a + n + k)) = 0.5%float).
  { intros k x Hk. rewrite (Hnew2 k x Hk). done. }
  simpl. split; [done|].
  subst after. case_bool_decide as Hf.
  - assert (Hnd2 : NoDup r2.1).
    { rewrite Hl2. by apply fresh_refs_distinct. }
    destruct (penalise_all_spec r2.1 r2.2 Hnd2) as (_ & _ & _ & _ & Hin).
    assert (Hpen : ∀ l, l ∈ r2.1 →
      ContextItem.effectiveness_score
        (heap (for_each r2.1 (λ context_item,
                 update_effectiveness context_item false 0.5) r2.2).2 l)
        = Py.max 0.0 (ContextItem.effectiveness_score (heap r2.2 l) - 0.025)%float
      ∧ ContextItem.id (heap (for_each r2.1 (λ context_item,
                 update_effectiveness context_item false 0.5) r2.2).2 l)
        = ContextItem.id (heap r2.2 l)
      ∧ ContextItem.content (heap (for_each r2.1 (λ context_item,
                 update_effectiveness context_item false 0.5) r2.2).2 l)
        = ContextItem.content (heap r2.2 l)
      ∧ ContextItem.category (heap (for_each r2.1 (λ context_item,
                 update_effectiveness context_item false 0.5) r2.2).2 l)
        = ContextItem.category (heap r2.2 l)
      ∧ ContextItem.priority (heap (for_each r2.1 (λ context_item,
                 update_effectiveness context_item false 0.5) r2.2).2 l)
        = ContextItem.priority (heap r2.2 l)).
    { intros l Hl. apply list_elem_of_lookup in Hl as [k Hk].
      by rewrite (Hin k l Hk). }
    split_and!.
    + intros k x Hk. apply lookup_lt_Some in Hk as Hlt. fold n in Hlt.
      destruct (Hins k x Hk) as (? & ? & ? & ?).
      destruct (Hpen (a + k)) as (? & ? & ? & ? & ?).
      { rewrite Hl2, !elem_of_app, !elem_of_seq. lia. }
      split_and!; congruence.
    + intros k x Hk. apply lookup_lt_Some in Hk as Hlt.
      destruct (Hrec k x Hk) as (? & ? & ? & ?).
      destruct (Hpen (a + n + k)) as (? & ? & ? & ? & ?).
      { rewrite Hl2, !elem_of_app, !elem_of_seq. lia. }
      split_and!; congruence.
    + intros l Hl.
      destruct (Hpen l) as (? & ? & ? & ? & ?).
      { rewrite Hl2, !elem_of_app. by left. }
      rewrite <- (Hold l Hl). done.
    + intros Hnil. done.
  - split_and!; [done|done| |by intros _].
    intros l Hl. by rewrite Hold.
Qed.

Lemma curate_appends_then_penalises_witness :
  NoDup [0]
  ∧ (DeepSeekCurator.curate [0] ["Test insight"] (test_reflection true)
       (test_world 0.5)).1 = [0; 1; 2]
  ∧ ContextItem.effectiveness_score
      (heap (DeepSeekCurator.curate [0] ["Test insight"] (test_reflection true)
               (test_world 0.5)).2 0) = 0.475%float.
Proof.
  assert (Hnd : NoDup [0]) by apply NoDup_singleton.
  assert (Halloc : ∀ l, l ∈ [0] → l < next_loc (test_world 0.5)).
  { intros l Hl. apply list_elem_of_singleton in Hl. subst l. simpl. lia. }
  destruct (curate_appends_then_penalises [0] ["Test insight"]
              (test_reflection true) (test_world 0.5) Hnd Halloc)
    as (Hl & _ & _ & Hold & _).
  split_and!; [done|exact Hl|].
  destruct (Hold 0) as [Hs _]; [by apply list_elem_of_singleton|].
  exact Hs.
Defined.

(** ** The orchestrator *)

Lemma curate_context_unfold self reflections w :
  ACEFramework.curate_context self reflections w =
    let w0 := (for_enumerate 0 (insights reflections) (λ i insight acc,
        x ← new_ContextItem
          ("insight_" +:+ Py.str (length (ACEFramework.context self)) +:+ "_"
             +:+ Py.str i)
          insight "insight" 0.8%float;
        mret (acc ++ [x])) [] w).2 in
    let c := curate (ACEFramework.curator self) (ACEFramework.context self)
               (insights reflections) reflections w0 in
    let rs := (if bool_decide (20 < length c.1)
               then ACEFramework.refine_context (ACEFramework.set_context c.1 self)
               else mret (ACEFramework.set_context c.1 self)) c.2 in
    ((ACEFramework.context rs.1, rs.1), rs.2).
Proof. reflexivity. Qed.

(** ** Sorting *)

Section stable_sort.
Context {A : Type} (lt : A → A → bool).

Lemma insert_Permutation x l : Py.insert lt x l ≡ₚ x :: l.
Proof.
  induction l as [|y l IH]; simpl; [done|].
  destruct (lt y x); [|done]. rewrite IH. apply Permutation_swap.
Qed.

Lemma stable_sort_Permutation l : Py.stable_sort lt l ≡ₚ l.
Proof.
  induction l as [|x l IH]; simpl; [done|].
  by rewrite insert_Permutation, IH.
Qed.
End stable_sort.

Lemma sorted_Permutation {A} (l : list A) key reverse :
  Py.sorted l key reverse ≡ₚ l.
Proof.
  unfold Py.sorted. destruct reverse.
  - by rewrite reverse_Permutation, stable_sort_Permutation, reverse_Permutation.
  - apply stable_sort_Permutation.
Qed.

(** ** Grow-and-refine *)



(** C3: [curate_context] hands the current knowledge and the reflection's
    insights to the curator (in the world its unused list of items leaves
    behind, where no existing object has changed) and replaces the knowledge by the curator's result, leaving
    the rest of the orchestrator as it was.  When that result has at most
    20 items it is the new knowledge as it stands.  When it has more than
    20 items the orchestrator is the one [refine_context] yields: the new
    knowledge is taken from the curator's result, has
    [max(10, n // 2)] of its [n] items and so is shorter.  Either way the
    call returns the knowledge the orchestrator then holds. *)
Theorem curate_context_refines_above_20 self reflections w :
  ∃ w0,
    w0 = (unused_new_insights self reflections w).2 ∧
    (∀ l, l < next_loc w → heap w0 l = heap w l) ∧ clock w0 = clock w ∧
    let c := curate (ACEFramework.curator self) (ACEFramework.context self)
               (insights reflections) reflections w0 in
    let r := ACEFramework.curate_context self reflections w in
    let replaced :=
      ACEFramework.Build (ACEFramework.curator self) c.1
        (ACEFramework.execution_history self)
        (ACEFramework.refinement_threshold self) in
    r.1.1 = ACEFramework.context r.1.2
    ∧ r.2 = c.2
    ∧ ACEFramework.curator r.1.2 = ACEFramework.curator self
    ∧ ACEFramework.execution_history r.1.2
      = ACEFramework.execution_history self
    ∧ ACEFramework.refinement_threshold r.1.2
      = ACEFramework.refinement_threshold self
    ∧ if bool_decide (20 < length c.1)
      then r.1.2 = (ACEFramework.refine_context replaced c.2).1
           ∧ ACEFramework.context r.1.2 ⊆+ c.1
           ∧ length (ACEFramework.context r.1.2)
             = 10 `max` (length c.1 `div` 2)
           ∧ length (ACEFramework.context r.1.2) < length c.1
      else r.1.2 = replaced ∧ ACEFramework.context r.1.2 = c.1.
Proof.
  set (body := λ (i : nat) (insight : string) (acc : list loc),
        x ← new_ContextItem
          ("insight_" +:+ Py.str (length (ACEFramework.context self)) +:+ "_"
             +:+ Py.str i)
          insight "insight" 0.8%float;
        mret (acc ++ [x])).
  exists (for_enumerate 0 (insights reflections) body [] w).2.
  split_and!.
  - reflexivity.
  - assert (H : ∀ l i acc w',
      ∀ l', l' < next_loc w' →
        heap (for_enumerate i l body acc w').2 l' = heap w' l'
        ∧ next_loc w' ≤ next_loc (for_enumerate i l body acc w').2).
    { induction l as [|x l IH]; intros i acc w' l' Hl'; [done|].
      change (for_enumerate i (x :: l) body acc w')
        with (for_enumerate (S i) l body (body i x acc w').1 (body i x acc w').2).
      assert (Hn : next_loc (body i x acc w').2 = S (next_loc w')) by done.
      destruct (IH (S i) (body i x acc w').1 (body i x acc w').2 l') as [-> ?];
        [lia|].
      split; [|lia].
      unfold body, mbind, M_bind, new_ContextItem, now, alloc. simpl.
      unfold insert, fn_insert. by rewrite decide_False by lia. }
    intros l Hl. by apply H.
  - assert (H : ∀ l i acc w',
      clock (for_enumerate i l body acc w').2 = clock w').
    { induction l as [|x l IH]; intros i acc w'; [done|].
      change (for_enumerate i (x :: l) body acc w')
        with (for_enumerate (S i) l body (body i x acc w').1 (body i x acc w').2).
      by rewrite IH. }
    apply H.
  - intros c r replaced. subst r.
    rewrite curate_context_unfold. cbv zeta. fold body. fold c.
    destruct (bool_decide_reflect (20 < length c.1)) as [Hn|Hn];
      [|by split_and!].
    split_and!; try reflexivity.
    + cbn [fst snd ACEFramework.refine_context ACEFramework.context
           ACEFramework.set_context].
      etrans; [apply submseteq_take|].
      apply Permutation_submseteq, sorted_Permutation.
    + cbn [fst snd ACEFramework.refine_context ACEFramework.context
           ACEFramework.set_context].
      rewrite length_take, (Permutation_length (sorted_Permutation _ _ _)).
      pose proof (Nat.Div0.div_le_upper_bound (length c.1) 2 (length c.1)).
      lia.
    + cbn [fst snd ACEFramework.refine_context ACEFramework.context
           ACEFramework.set_context].
      rewrite length_take, (Permutation_length (sorted_Permutation _ _ _)).
      pose proof (Nat.div_mod_eq (length c.1) 2).
      pose proof (Nat.mod_upper_bound (length c.1) 2). lia.
Qed.

(** ** Comparison of binary64 values *)

Local Ltac rank_cases :=
  split; intros; first [discriminate | reflexivity | lia].

Lemma SFltb_rank x y :
  x ≠ S754_nan → y ≠ S754_nan →
  SFltb x y = true ↔ lex_lt (SFrank x) (SFrank y).
Proof.
  intros Hx Hy. unfold SFltb, lex_lt.
  destruct x as [[]|[]| |[] mx ex], y as [[]|[]| |[] my ey]; simpl;
    try done; try by rank_cases.
  all: change (Pos.compare_cont Eq mx my) with (mx ?= my)%positive;
    destruct (Z.compare_spec ex ey); destruct (Pos.compare_spec mx my);
    simpl; rank_cases.
Qed.

Lemma SFleb_rank x y :
  x ≠ S754_nan → y ≠ S754_nan →
  SFleb x y = true ↔ ¬ lex_lt (SFrank y) (SFrank x).
Proof.
  intros Hx Hy. unfold SFleb, lex_lt.
  destruct x as [[]|[]| |[] mx ex], y as [[]|[]| |[] my ey]; simpl;
    try done; try by rank_cases.
  all: change (Pos.compare_cont Eq mx my) with (mx ?= my)%positive;
    destruct (Z.compare_spec ex ey); destruct (Pos.compare_spec mx my);
    simpl; rank_cases.
Qed.

Lemma SFeqb_rank x y :
  x ≠ S754_nan → y ≠ S754_nan →
  SFeqb x y = true ↔ ¬ lex_lt (SFrank x) (SFrank y) ∧ ¬ lex_lt (SFrank y) (SFrank x).
Proof.
  intros Hx Hy. unfold SFeqb, lex_lt.
  destruct x as [[]|[]| |[] mx ex], y as [[]|[]| |[] my ey]; simpl;
    try done; try by rank_cases.
  all: change (Pos.compare_cont Eq mx my) with (mx ?= my)%positive;
    destruct (Z.compare_spec ex ey); destruct (Pos.compare_spec mx my);
    simpl; rank_cases.
Qed.

Lemma is_nan_Prim2SF x : is_nan x = false ↔ Prim2SF x ≠ S754_nan.
Proof.
  unfold is_nan. rewrite FloatAxioms.eqb_spec, negb_false_iff. split.
  - intros H Hn. rewrite Hn in H. done.
  - intros H. apply SFeqb_rank; [done..|]. unfold lex_lt. lia.
Qed.

Lemma ltb_rank x y :
  is_nan x = false → is_nan y = false →
  (x <? y)%float = true ↔ lex_lt (rank x) (rank y).
Proof.
  rewrite !is_nan_Prim2SF, FloatAxioms.ltb_spec. apply SFltb_rank.
Qed.

Lemma leb_rank x y :
  is_nan x = false → is_nan y = false →
  (x <=? y)%float = true ↔ ¬ lex_lt (rank y) (rank x).
Proof.
  rewrite !is_nan_Prim2SF, FloatAxioms.leb_spec. apply SFleb_rank.
Qed.


(** ** Order and stability of the sort *)

Section sort_order.
Context {A : Type} (lt : A → A → bool) (ok : A → Prop).
Hypothesis lt_asym : ∀ x y, ok x → ok y → lt x y = true → lt y x = false.
Hypothesis nlt_trans : ∀ x y z, ok x → ok y → ok z →
  lt y x = false → lt z y = false → lt z x = false.

(** [a] may stand before [b] in ascending order. *)
Let asc (a b : A) : Prop := lt b a = false.

Lemma insert_sorted x l :
  ok x → Forall ok l →
  StronglySorted asc l → StronglySorted asc (Py.insert lt x l).
Proof.
  intros Hx Hl Hs. induction Hs as [|y l Hs IH Hy]; simpl.
  { repeat constructor. }
  apply Forall_cons in Hl as [Hoky Hl].
  destruct (lt y x) eqn:Hyx.
  - constructor; [by apply IH|].
    rewrite insert_Permutation. constructor; [|done].
    by apply lt_asym.
  - constructor; [by constructor|]. constructor; [done|].
    rewrite Forall_forall in Hy, Hl |- *. intros b Hb.
    apply (nlt_trans x y b); auto. by apply Hy.
Qed.

Lemma stable_sort_sorted l :
  Forall ok l → StronglySorted asc (Py.stable_sort lt l).
Proof.
  induction 1 as [|x l Hx Hl IH]; simpl; [constructor|].
  apply insert_sorted; [done| |done].
  by rewrite stable_sort_Permutation.
Qed.

End sort_order.

Section sort_stable.
Context {A : Type} (lt : A → A → bool) (ok : A → Prop).
(** A class of elements that tie with one another. *)
Context (C : A → Prop) `{∀ x, Decision (C x)}.
Hypothesis C_tie : ∀ x y, ok x → ok y → C x → C y → lt y x = false.


End sort_stable.

Lemma StronglySorted_reverse {A} (R : relation A) l :
  StronglySorted R l → StronglySorted (flip R) (reverse l).
Proof.
  induction 1 as [|x l Hs IH Hx]; [rewrite reverse_nil; constructor|].
  rewrite reverse_cons. apply StronglySorted_app_2.
  - intros a b Ha Hb. apply list_elem_of_singleton in Hb as ->.
    rewrite elem_of_reverse in Ha. rewrite Forall_forall in Hx.
    unfold flip. by apply Hx.
  - exact IH.
  - apply SSorted_cons; [apply SSorted_nil|apply Forall_nil_2].
Qed.

Local Ltac by_rank x y :=
  let a := fresh in let b := fresh in let c := fresh in
  let a' := fresh in let b' := fresh in let c' := fresh in
  unfold lex_lt in *;
  destruct (rank x) as [[a b] c]; destruct (rank y) as [[a' b'] c'];
  simpl in *.

Lemma ltb_false_rank x y :
  is_nan x = false → is_nan y = false →
  (x <? y)%float = false ↔ ¬ lex_lt (rank x) (rank y).
Proof.
  intros Hx Hy. rewrite <- (ltb_rank x y Hx Hy).
  by destruct (x <? y)%float.
Qed.

Lemma ltb_asym x y :
  is_nan x = false → is_nan y = false →
  (x <? y)%float = true → (y <? x)%float = false.
Proof.
  intros Hx Hy. rewrite ltb_rank, ltb_false_rank by done.
  by_rank x y. lia.
Qed.

Lemma ltb_false_trans x y z :
  is_nan x = false → is_nan y = false → is_nan z = false →
  (y <? x)%float = false → (z <? y)%float = false → (z <? x)%float = false.
Proof.
  intros Hx Hy Hz. rewrite !ltb_false_rank by done.
  by_rank x y. destruct (rank z) as [[??]?]. simpl. lia.
Qed.

Lemma ltb_false_leb x y :
  is_nan x = false → is_nan y = false →
  (x <? y)%float = false ↔ (y <=? x)%float = true.
Proof.
  intros Hx Hy. by rewrite ltb_false_rank, leb_rank.
Qed.



(** ** What [refine_context] keeps *)

Section refine.
Context (self : ACEFramework.t) (w : world).

Let key : loc → float := ACEFramework.score_key (heap w).
Let sorted_context : list loc := Py.sorted (ACEFramework.context self) key true.
Let keep_count : nat := 10 `max` (length sorted_context `div` 2).

Lemma refine_context_retained :
  ACEFramework.context (ACEFramework.refine_context self w).1
  = take keep_count sorted_context.
Proof. done. Qed.

Lemma refine_context_split :
  ACEFramework.context (ACEFramework.refine_context self w).1
    ++ ACEFramework.refine_discarded self w = sorted_context.
Proof. apply take_drop. Qed.

Lemma sorted_context_descending :
  Forall (λ x, is_nan (key x) = false) (ACEFramework.context self) →
  StronglySorted (λ a b, (key b <=? key a)%float = true) sorted_context.
Proof.
  intros Hok. unfold sorted_context, Py.sorted.
  set (lt := λ x y, (key x <? key y)%float).
  assert (Hrev : Forall (λ x, is_nan (key x) = false)
                   (reverse (ACEFramework.context self)))
    by by rewrite reverse_Permutation.
  pose proof (stable_sort_sorted lt (λ x, is_nan (key x) = false)
    (λ x y, ltb_asym (key x) (key y))
    (λ x y z, ltb_false_trans (key x) (key y) (key z)) _ Hrev) as Hs.
  apply StronglySorted_reverse in Hs.
  assert (Hok' : Forall (λ x, is_nan (key x) = false)
            (reverse (Py.stable_sort lt (reverse (ACEFramework.context self)))))
    by by rewrite reverse_Permutation, stable_sort_Permutation.
  revert Hs Hok'. generalize (reverse (Py.stable_sort lt
                                (reverse (ACEFramework.context self)))).
  induction 1 as [|a l Hs IH Ha]; intros Hl; constructor.
  - apply IH. by apply Forall_cons in Hl as [_ ?].
  - apply Forall_cons in Hl as [Hna Hl].
    rewrite Forall_forall in Ha, Hl |- *. intros b Hb.
    apply ltb_false_leb; auto. by apply Ha.
Qed.

End refine.





(** C10: the retained items are a sub-multiset of the collection and
    [refine_context] touches neither the heap nor the clock, so no item is
    modified; when no key is NaN the retained items are in descending key
    order.  The original order is not kept, also when nothing is
    discarded: of three objects with scores 0.1, 0.5, 0.5 the first ends
    up last. *)
Theorem refine_context_sorted_submultiset self w :
  let key := ACEFramework.score_key (heap w) in
  let r := ACEFramework.refine_context self w in
  ACEFramework.context r.1 ⊆+ ACEFramework.context self
  ∧ r.2 = w
  ∧ (Forall (λ x, is_nan (key x) = false) (ACEFramework.context self) →
     StronglySorted (λ a b, (key b <=? key a)%float = true)
       (ACEFramework.context r.1))
  ∧ (ACEFramework.context (ranked_engine 3) = [0; 1; 2]
     ∧ ACEFramework.context
         (ACEFramework.refine_context (ranked_engine 3) ranked_world).1
       = [1; 2; 0]).
Proof.
  intros key r. split_and!.
  - subst r. rewrite refine_context_retained.
    etrans; [apply submseteq_take|].
    apply Permutation_submseteq, sorted_Permutation.
  - done.
  - intros Hok. subst r key. rewrite refine_context_retained.
    pose proof (sorted_context_descending self w Hok) as Hdesc.
    rewrite <- (refine_context_split self w), refine_context_retained in Hdesc.
    by apply StronglySorted_app_1_l in Hdesc.
  - done.
  - by vm_compute.
Qed.

(** ** Ids *)

(** C8 (the code at a failing input): the seeded orchestrator holds twenty
    distinct objects with pairwise distinct ids; after three calls of
    [curate_context] its collection holds ten distinct objects of which
    the first two both carry the id "insight_20_0". *)
Theorem curate_context_repeats_an_id :
  NoDup (context_ids seed_world (ACEFramework.context seed_engine))
  ∧ NoDup three_cycles.1.1
  ∧ context_ids three_cycles.2 three_cycles.1.1 !! 0 = Some "insight_20_0"
  ∧ context_ids three_cycles.2 three_cycles.1.1 !! 1 = Some "insight_20_0"
  ∧ ¬ NoDup (context_ids three_cycles.2 three_cycles.1.1).
Proof.
  split_and!.
  - apply (bool_decide_unpack _). by vm_compute.
  - apply (bool_decide_unpack _). by vm_compute.
  - by vm_compute.
  - by vm_compute.
  - apply (bool_decide_unpack _). by vm_compute.
Qed.

(** ** Rounding of binary64 sums, differences and products *)

Section rounding.
Local Open Scope Z_scope.

(** The number of binary digits of a mantissa. *)
Lemma digits2_pos_log2 m : Z.pos (digits2_pos m) = Z.log2 (Z.pos m) + 1.
Proof.
  induction m as [m IH|m IH|]; simpl digits2_pos; [| |done].
  - rewrite Pos2Z.inj_succ, IH.
    rewrite (Pos2Z.inj_xI m), Z.log2_succ_double by lia. lia.
  - rewrite Pos2Z.inj_succ, IH.
    rewrite (Pos2Z.inj_xO m), Z.log2_double by lia. lia.
Qed.

(** One step of the right shift halves the mantissa. *)
Lemma shr_1_m mrs : 0 ≤ shr_m mrs → shr_m (shr_1 mrs) = shr_m mrs / 2.
Proof.
  destruct mrs as [m r s]. cbn [shr_m]. intros Hm.
  destruct m as [|[p|p|]|p]; cbn [shr_1 shr_m]; try done; try lia.
  - apply (Z.div_unique _ _ _ 1); lia.
  - apply (Z.div_unique _ _ _ 0); lia.
Qed.

(** [p] steps divide it by [2^p]. *)
Lemma shr_iter_m p : ∀ mrs,
  0 ≤ shr_m mrs →
  shr_m (SpecFloat.iter_pos shr_1 p mrs) = shr_m mrs / 2 ^ Z.pos p.
Proof.
  assert (Hdiv : ∀ a b, 0 ≤ a → 0 ≤ a / 2 ^ Z.pos b).
  { intros a b Ha. apply Z.div_pos; [done|]. by apply Z.pow_pos_nonneg. }
  assert (Hhalf : ∀ a, 0 ≤ a → 0 ≤ a / 2) by (intros; apply Z.div_pos; lia).
  assert (Hpow : ∀ b, 0 < 2 ^ Z.pos b) by (intros; by apply Z.pow_pos_nonneg).
  induction p as [p IH|p IH|]; intros mrs Hm; simpl SpecFloat.iter_pos.
  - assert (E : 2 ^ Z.pos p~1 = 2 * 2 ^ Z.pos p * 2 ^ Z.pos p).
    { replace (Z.pos p~1) with (1 + (Z.pos p + Z.pos p)) by lia.
      rewrite Z.pow_add_r, Z.pow_add_r, Z.pow_1_r by lia. lia. }
    assert (Ha : 0 ≤ shr_m (shr_1 mrs)) by (rewrite shr_1_m; auto).
    pose proof (IH _ Ha) as Hb.
    rewrite IH by (rewrite Hb; auto).
    rewrite Hb, shr_1_m, !Z.div_div, E by (first [done | lia]).
    f_equal. lia.
  - assert (E : 2 ^ Z.pos p~0 = 2 ^ Z.pos p * 2 ^ Z.pos p).
    { replace (Z.pos p~0) with (Z.pos p + Z.pos p) by lia.
      by rewrite Z.pow_add_r by lia. }
    pose proof (IH _ Hm) as Hb.
    rewrite IH by (rewrite Hb; auto).
    rewrite Hb, !Z.div_div, E by (first [done | lia]). done.
  - by rewrite shr_1_m.
Qed.

Lemma fexp_fexp64 e : fexp prec emax e = fexp64 e.
Proof. reflexivity. Qed.

(** [shr] by [n] bits: a division by [2^n], nothing at all when
    [n <= 0]. *)
Lemma shr_spec mrs e n :
  0 ≤ shr_m mrs →
  shr_m (shr mrs e n).1 = shr_m mrs / 2 ^ Z.max 0 n
  ∧ (shr mrs e n).2 = e + Z.max 0 n
  ∧ (n ≤ 0 → (shr mrs e n).1 = mrs).
Proof.
  intros Hm. destruct n as [|p|p]; simpl.
  - rewrite Z.div_1_r. split_and!; [done|lia|done].
  - rewrite shr_iter_m by done. split_and!; [done|done|lia].
  - rewrite Z.div_1_r. split_and!; [done|lia|done].
Qed.

Lemma shr_record_of_loc_m m l : shr_m (shr_record_of_loc m l) = m.
Proof. by destruct l as [|[]]. Qed.

Lemma round_nearest_even_cases mx lx :
  round_nearest_even mx lx = mx ∨ round_nearest_even mx lx = mx + 1.
Proof. destruct lx as [|[]]; simpl; auto. destruct (Z.even mx); auto. Qed.

(** What rounding to nearest does to an exact positive [m * 2^e]: the
    mantissa is cut down to the exponent [e1] that binary64 allows and
    rounded to [m1], one of the two neighbours (no rounding when nothing is
    cut); if that overflows the 53 bits, one more bit is cut. *)
Lemma binary_round_aux_spec sx m e :
  ∃ m1 e1 m2 e2,
    e1 = Z.max e (fexp64 (Z.pos (digits2_pos m) + e))
    ∧ (m1 = Z.pos m / 2 ^ (e1 - e) ∨ m1 = Z.pos m / 2 ^ (e1 - e) + 1)
    ∧ (e1 = e → m1 = Z.pos m)
    ∧ e2 = Z.max e1 (fexp64 (Zdigits2 m1 + e1))
    ∧ m2 = m1 / 2 ^ (e2 - e1)
    ∧ binary_round_aux prec emax sx (Z.pos m) e loc_Exact =
        match m2 with
        | Z0 => S754_zero sx
        | Z.pos p => if e2 <=? 971 then S754_finite sx p e2 else S754_infinity sx
        | Z.neg _ => S754_nan
        end.
Proof.
  unfold binary_round_aux, shr_fexp.
  change (fexp prec emax) with fexp64.
  set (n1 := fexp64 (Zdigits2 (Z.pos m) + e) - e).
  destruct (shr_spec (shr_record_of_loc (Z.pos m) loc_Exact) e n1)
    as (Hm1 & He1 & Hex1); [simpl; lia|].
  destruct (shr (shr_record_of_loc (Z.pos m) loc_Exact) e n1) as [mrs' e'].
  simpl in Hm1, He1, Hex1.
  set (m1 := round_nearest_even (shr_m mrs') (loc_of_shr_record mrs')).
  assert (Hm1nn : 0 ≤ shr_m mrs').
  { rewrite Hm1. apply Z.div_pos; [lia|]. apply Z.pow_pos_nonneg; lia. }
  assert (Hm1' : 0 ≤ m1).
  { subst m1. destruct (round_nearest_even_cases (shr_m mrs')
                          (loc_of_shr_record mrs')) as [-> | ->]; lia. }
  set (n2 := fexp64 (Zdigits2 m1 + e') - e').
  destruct (shr_spec (shr_record_of_loc m1 loc_Exact) e' n2)
    as (Hm2 & He2 & _); [simpl; lia|].
  destruct (shr (shr_record_of_loc m1 loc_Exact) e' n2) as [mrs'' e''].
  simpl in Hm2, He2.
  exists m1, e', (shr_m mrs''), e''.
  assert (He' : e' = Z.max e (fexp64 (Z.pos (digits2_pos m) + e))).
  { rewrite He1. subst n1. simpl Zdigits2. lia. }
  assert (Hn1 : Z.max 0 n1 = e' - e) by lia.
  assert (He'' : e'' = Z.max e' (fexp64 (Zdigits2 m1 + e'))).
  { rewrite He2. subst n2. lia. }
  assert (Hn2 : Z.max 0 n2 = e'' - e') by lia.
  split_and!.
  - done.
  - rewrite <- Hn1, <- Hm1. apply round_nearest_even_cases.
  - intros Heq. subst m1. rewrite Hex1 by lia. done.
  - done.
  - by rewrite <- Hn2.
  - done.
Qed.

Lemma Zdigits2_log2 m : 0 < m → Zdigits2 m = Z.log2 m + 1.
Proof. destruct m as [|p|p]; [lia| |lia]. intros _. apply digits2_pos_log2. Qed.

Lemma pow2_pos k : 0 ≤ k → 0 < 2 ^ k.
Proof. intros. by apply Z.pow_pos_nonneg. Qed.

Lemma div_pow2_pos a k : 0 < a → 0 ≤ k ≤ Z.log2 a → 0 < a / 2 ^ k.
Proof.
  intros Ha Hk.
  assert (2 ^ k ≤ a) by (apply Z.log2_le_pow2; lia).
  pose proof (pow2_pos k).
  assert (1 ≤ a / 2 ^ k) by (apply Z.div_le_lower_bound; lia). lia.
Qed.

Lemma log2_mul_pow2 a k : 0 < a → 0 ≤ k → Z.log2 (a * 2 ^ k) = Z.log2 a + k.
Proof. intros. rewrite Z.log2_mul_pow2 by lia. lia. Qed.

(** The second normalisation step of rounding keeps a positive mantissa
    positive, and is the identity when the exponent does not move. *)
Lemma second_shift_pos m1 e1 e2 m2 :
  0 < m1 → -1074 ≤ e1 →
  e2 = Z.max e1 (fexp64 (Zdigits2 m1 + e1)) →
  m2 = m1 / 2 ^ (e2 - e1) →
  0 < m2 ∧ (e2 = e1 → m2 = m1).
Proof.
  intros Hm1 He1 -> ->. rewrite Zdigits2_log2 by done. unfold fexp64.
  split.
  - apply div_pow2_pos; [done|]. pose proof (Z.log2_nonneg m1). lia.
  - intros ->. by rewrite Z.sub_diag, Z.div_1_r.
Qed.

(** Rounding the exact sum of a canonical [ms * 2^es] and a positive
    number can only move up. *)
Lemma add_round_bound ms es m ez m1 e1 m2 e2 :
  0 < ms → fexp64 (Z.log2 ms + 1 + es) = es → ez ≤ es →
  ms * 2 ^ (es - ez) ≤ m →
  e1 = Z.max ez (fexp64 (Z.log2 m + 1 + ez)) →
  (m1 = m / 2 ^ (e1 - ez) ∨ m1 = m / 2 ^ (e1 - ez) + 1) →
  e2 = Z.max e1 (fexp64 (Zdigits2 m1 + e1)) →
  m2 = m1 / 2 ^ (e2 - e1) →
  0 < m2 ∧ (es < e2 ∨ (e2 = es ∧ ms ≤ m2)).
Proof.
  intros Hms Hcan Hez Hm He1 Hm1 He2 Hm2.
  pose proof (pow2_pos (es - ez)) as Hp.
  assert (Hmpos : 0 < m) by nia.
  assert (Hlog : Z.log2 ms + (es - ez) ≤ Z.log2 m).
  { rewrite <- log2_mul_pow2 by lia. by apply Z.log2_le_mono. }
  assert (Hes : -1074 ≤ es) by (unfold fexp64 in Hcan; lia).
  assert (He1es : es ≤ e1) by (unfold fexp64 in *; lia).
  pose proof (pow2_pos (e1 - ez)) as Hp1.
  assert (Hq : 0 < m / 2 ^ (e1 - ez) ∧ (e1 = es → ms ≤ m / 2 ^ (e1 - ez))).
  { split.
    - apply div_pow2_pos; [done|]. pose proof (Z.log2_nonneg ms).
      unfold fexp64 in *. lia.
    - intros ->. apply Z.div_le_lower_bound; lia. }
  assert (Hm1pos : 0 < m1 ∧ (e1 = es → ms ≤ m1)) by lia.
  destruct (second_shift_pos m1 e1 e2 m2) as [Hm2pos Hsame]; [lia..|done|done|].
  split; [done|].
  assert (e1 ≤ e2) by lia.
  destruct (decide (e2 = es)) as [Heq|]; [|lia].
  right. split; [done|]. rewrite Hsame by lia. apply Hm1pos. lia.
Qed.

(** Rounding a positive number below a canonical [ms * 2^es] cannot move
    above it. *)
Lemma sub_round_bound ms es m ez m1 e1 m2 e2 :
  0 < ms → fexp64 (Z.log2 ms + 1 + es) = es → ez ≤ es →
  0 < m → m < ms * 2 ^ (es - ez) →
  e1 = Z.max ez (fexp64 (Z.log2 m + 1 + ez)) →
  (m1 = m / 2 ^ (e1 - ez) ∨ m1 = m / 2 ^ (e1 - ez) + 1) →
  (e1 = ez → m1 = m) →
  e2 = Z.max e1 (fexp64 (Zdigits2 m1 + e1)) →
  m2 = m1 / 2 ^ (e2 - e1) →
  0 ≤ m2 ∧ e2 ≤ es ∧ (e2 = es → m2 ≤ ms).
Proof.
  intros Hms Hcan Hez Hmpos Hm He1 Hm1 Hexact He2 Hm2.
  pose proof (pow2_pos (es - ez)) as Hp.
  assert (Hlog : Z.log2 m ≤ Z.log2 ms + (es - ez)).
  { rewrite <- log2_mul_pow2 by lia. apply Z.log2_le_mono. lia. }
  assert (Hes : -1074 ≤ es) by (unfold fexp64 in Hcan; lia).
  assert (He1es : -1074 ≤ e1 ≤ es) by (unfold fexp64 in *; lia).
  pose proof (pow2_pos (e1 - ez)) as Hp1.
  assert (Hq0 : 0 ≤ m / 2 ^ (e1 - ez)) by (apply Z.div_pos; lia).
  assert (Hm1nn : 0 ≤ m1) by lia.
  assert (Hm2nn : 0 ≤ m2).
  { subst m2. apply Z.div_pos; [done|]. apply pow2_pos. lia. }
  (* a zero mantissa stays zero *)
  destruct (decide (m1 = 0)) as [Hz|Hnz].
  { subst m1. simpl in He2. unfold fexp64 in He2.
    assert (e2 = e1) by lia. subst m2. rewrite Z.div_0_l; [lia|].
    pose proof (pow2_pos (e2 - e1)). lia. }
  assert (Hm1pos : 0 < m1) by lia.
  rewrite Zdigits2_log2 in He2 by done.
  pose proof (Z.log2_nonneg m1) as Hl1.
  destruct (decide (e1 = es)) as [Heq|Hne].
  - (* the exponent of [ms * 2^es] is reached at the first step *)
    assert (Hq : m / 2 ^ (e1 - ez) < ms).
    { apply Z.div_lt_upper_bound; [lia|]. rewrite Heq. lia. }
    assert (Hle : m1 ≤ ms) by lia.
    assert (Z.log2 m1 ≤ Z.log2 ms) by by apply Z.log2_le_mono.
    assert (e2 = es) by (unfold fexp64 in *; lia).
    split_and!; [done|lia|]. intros _. subst m2.
    replace (e2 - e1) with 0 by lia. by rewrite Z.div_1_r.
  - destruct (decide (e1 = ez)) as [Heq|Hgt].
    + (* no shift at all: the number is kept as it is *)
      rewrite (Hexact Heq) in *.
      assert (e2 = e1) by (unfold fexp64 in *; lia).
      split_and!; [done|lia|lia].
    + (* a proper shift, to an exponent below [es] *)
      assert (He1' : e1 = fexp64 (Z.log2 m + 1 + ez)) by lia.
      set (t := Z.max 0 (Z.log2 m + 1 + ez - e1)).
      assert (Ht : 0 ≤ t ≤ 53) by (unfold fexp64 in *; lia).
      assert (Hq : m / 2 ^ (e1 - ez) < 2 ^ t).
      { apply Z.div_lt_upper_bound; [lia|].
        rewrite <- Z.pow_add_r by lia.
        destruct (Z.log2_spec m Hmpos) as [_ Hup].
        eapply Z.lt_le_trans; [exact Hup|].
        apply Z.pow_le_mono_r; lia. }
      assert (Hm1t : m1 ≤ 2 ^ t) by lia.
      assert (Hl1t : Z.log2 m1 ≤ t).
      { rewrite <- (Z.log2_pow2 t) by lia. by apply Z.log2_le_mono. }
      assert (He2' : e2 ≤ e1 + 1) by (unfold fexp64 in *; lia).
      split_and!; [done|lia|]. intros He2es.
      assert (Hl1' : Z.log2 m1 = 53) by (unfold fexp64 in *; lia).
      assert (Ht53 : t = 53) by lia.
      destruct (Z.log2_spec m1 Hm1pos) as [Hlow _].
      rewrite Hl1' in Hlow. rewrite Ht53 in Hm1t.
      assert (Hm1v : m1 = 2 ^ 53) by lia.
      assert (Hlms : Z.log2 ms = 52) by (unfold fexp64 in *; lia).
      destruct (Z.log2_spec ms Hms) as [Hmslow _]. rewrite Hlms in Hmslow.
      subst m2. replace (e2 - e1) with 1 by lia. rewrite Hm1v.
      change (2 ^ 53 / 2 ^ 1) with (2 ^ 52). done.
Qed.

(** A valid finite float has the exponent binary64 gives its
    magnitude. *)
Lemma bounded_spec m e :
  bounded prec emax m e = true →
  fexp64 (Z.log2 (Z.pos m) + 1 + e) = e ∧ e ≤ 971.
Proof.
  unfold bounded, canonical_mantissa. intros H.
  apply andb_prop in H as [H1 H2].
  apply Z.eqb_eq in H1. apply Z.leb_le in H2.
  rewrite digits2_pos_log2 in H1. done.
Qed.

(** Alignment to a lower exponent multiplies the mantissa. *)
Lemma shl_align_spec mx ex ex' :
  (shl_align mx ex ex').2 = Z.min ex ex'
  ∧ Z.pos (shl_align mx ex ex').1 = Z.pos mx * 2 ^ (ex - Z.min ex ex').
Proof.
  unfold shl_align. destruct (ex' - ex) as [|d|d] eqn:E; simpl.
  - replace (Z.min ex ex') with ex by lia. rewrite Z.sub_diag. lia.
  - replace (Z.min ex ex') with ex by lia. rewrite Z.sub_diag. lia.
  - replace (Z.min ex ex') with ex' by lia. split; [done|].
    replace (ex - ex') with (Z.pos d) by lia.
    change (Pos.iter xO mx d) with (shift_pos d mx).
    rewrite shift_pos_correct. change (Z.pow_pos 2 d) with (2 ^ Z.pos d). lia.
Qed.

Lemma binary_round_unfold sx m e :
  binary_round prec emax sx m e =
    binary_round_aux prec emax sx
      (Z.pos (shl_align m e (fexp64 (Z.pos (digits2_pos m) + e))).1)
      (shl_align m e (fexp64 (Z.pos (digits2_pos m) + e))).2 loc_Exact.
Proof.
  unfold binary_round. change (fexp prec emax) with fexp64.
  by destruct (shl_align m e (fexp64 (Z.pos (digits2_pos m) + e))).
Qed.

(** The sum of two positive finite numbers is not below the first. *)
Lemma SFadd_finite_ge ms es my ey :
  bounded prec emax ms es = true →
  SFleb (S754_finite false ms es)
        (SF64add (S754_finite false ms es) (S754_finite false my ey)) = true.
Proof.
  intros Hs. apply bounded_spec in Hs as [Hcan Hmax].
  unfold SF64add, SFadd. cbn [cond_Zopp].
  destruct (shl_align_spec ms es (Z.min es ey)) as [_ Hms'].
  destruct (shl_align_spec my ey (Z.min es ey)) as [_ Hmy'].
  set (ez := Z.min es ey) in *.
  replace (Z.min es ez) with ez in Hms' by lia.
  change (Z.pos (shl_align ms es ez).1 + Z.pos (shl_align my ey ez).1)
    with (Z.pos ((shl_align ms es ez).1 + (shl_align my ey ez).1)).
  cbn [binary_normalize]. rewrite binary_round_unfold.
  assert (Hm : Z.pos ms * 2 ^ (es - ez)
               ≤ Z.pos ((shl_align ms es ez).1 + (shl_align my ey ez).1)) by lia.
  generalize dependent ((shl_align ms es ez).1 + (shl_align my ey ez).1)%positive.
  intros m Hm.
  pose proof (pow2_pos (es - ez)) as Hp.
  assert (Hlog : Z.log2 (Z.pos ms) + (es - ez) ≤ Z.log2 (Z.pos m)).
  { rewrite <- log2_mul_pow2 by lia. by apply Z.log2_le_mono. }
  assert (Hnoshift : ez ≤ fexp64 (Z.pos (digits2_pos m) + ez)).
  { rewrite digits2_pos_log2. unfold fexp64 in *. lia. }
  remember (fexp64 (Z.pos (digits2_pos m) + ez)) as F eqn:HF.
  destruct (shl_align_spec m ez F) as [He Hmz].
  rewrite Z.min_l in He, Hmz by done.
  rewrite Z.sub_diag, Z.mul_1_r in Hmz. injection Hmz as Hmz.
  rewrite He, Hmz. clear He Hmz HF Hnoshift F.
  destruct (binary_round_aux_spec false m ez)
    as (m1 & e1 & m2 & e2 & He1 & Hm1 & _ & He2 & Hm2 & ->).
  rewrite digits2_pos_log2 in He1.
  destruct (add_round_bound (Z.pos ms) es (Z.pos m) ez m1 e1 m2 e2)
    as [Hpos Hcmp]; try done; [lia..|].
  destruct m2 as [|p2|]; [lia| |lia].
  destruct (e2 <=? 971); [|done].
  apply SFleb_rank; [done..|]. unfold lex_lt. simpl. lia.
Qed.

(** Rounding a positive mantissa gives a zero, a finite number or an
    infinity of the requested sign, never NaN. *)
Lemma binary_round_aux_signed sx m e :
  match binary_round_aux prec emax sx (Z.pos m) e loc_Exact with
  | S754_zero s | S754_finite s _ _ | S754_infinity s => s = sx
  | S754_nan => False
  end.
Proof.
  destruct (binary_round_aux_spec sx m e)
    as (m1 & e1 & m2 & e2 & He1 & Hm1 & _ & He2 & Hm2 & ->).
  assert (0 ≤ m1).
  { assert (0 ≤ Z.pos m / 2 ^ (e1 - e)); [|lia].
    apply Z.div_pos; [lia|]. apply pow2_pos. lia. }
  assert (0 ≤ m2).
  { subst m2. apply Z.div_pos; [lia|]. apply pow2_pos. lia. }
  destruct m2; [done| |lia]. by destruct (e2 <=? 971).
Qed.

Lemma binary_round_signed sx m e :
  match binary_round prec emax sx m e with
  | S754_zero s | S754_finite s _ _ | S754_infinity s => s = sx
  | S754_nan => False
  end.
Proof. rewrite binary_round_unfold. apply binary_round_aux_signed. Qed.

Lemma SFleb_refl x : x ≠ S754_nan → SFleb x x = true.
Proof. intros. apply SFleb_rank; [done..|]. unfold lex_lt. lia. Qed.

(** The difference of two positive finite numbers is not above the
    first. *)
Lemma SFsub_finite_le ms es my ey :
  bounded prec emax ms es = true →
  SFleb (SF64sub (S754_finite false ms es) (S754_finite false my ey))
        (S754_finite false ms es) = true.
Proof.
  intros Hs. apply bounded_spec in Hs as [Hcan Hmax].
  unfold SF64sub, SFsub. cbn [cond_Zopp].
  destruct (shl_align_spec ms es (Z.min es ey)) as [_ Hms'].
  set (ez := Z.min es ey) in *.
  replace (Z.min es ez) with ez in Hms' by lia.
  pose proof (pow2_pos (es - ez)) as Hp.
  destruct (Z.pos (shl_align ms es ez).1 - Z.pos (shl_align my ey ez).1)
    as [|m|m] eqn:Hd; cbn [binary_normalize].
  - done.
  - (* a positive difference *)
    assert (Hm : Z.pos m < Z.pos ms * 2 ^ (es - ez)) by lia.
    clear Hd Hms'. rewrite binary_round_unfold.
    remember (fexp64 (Z.pos (digits2_pos m) + ez)) as F eqn:HF.
    destruct (shl_align_spec m ez F) as [He Hmz].
    set (ez' := Z.min ez F) in *.
    rewrite He. clear He.
    generalize dependent (shl_align m ez F).1. intros mz Hmz.
    pose proof (pow2_pos (ez - ez')) as Hp'.
    assert (Hlt : Z.pos mz < Z.pos ms * 2 ^ (es - ez')).
    { replace (es - ez') with ((es - ez) + (ez - ez')) by lia.
      rewrite Z.pow_add_r by lia. nia. }
    destruct (binary_round_aux_spec false mz ez')
      as (m1 & e1 & m2 & e2 & He1 & Hm1 & Hexact & He2 & Hm2 & ->).
    rewrite digits2_pos_log2 in He1.
    destruct (sub_round_bound (Z.pos ms) es (Z.pos mz) ez' m1 e1 m2 e2)
      as (Hnn & Hle & Hcmp); try done; [lia..|].
    destruct m2 as [|p2|]; [done| |lia].
    replace (e2 <=? 971) with true by (symmetry; apply Z.leb_le; lia).
    apply SFleb_rank; [done..|]. unfold lex_lt. simpl. lia.
  - (* a negative difference *)
    pose proof (binary_round_signed true m ez) as Hsign.
    by destruct (binary_round prec emax true m ez) as [[]|[]| |[]].
Qed.

(** Adding a non-negative number does not decrease a non-negative one. *)
Lemma SFadd_ge s y :
  valid_binary s = true → SFnonneg s → SFnonneg y →
  SFleb s (SF64add s y) = true.
Proof.
  intros Hv Hs Hy.
  destruct s as [[]|[]| |[] ms es], y as [[]|[]| |[] my ey]; try done.
  - by apply SFleb_refl.
  - by apply SFleb_refl.
  - by apply SFadd_finite_ge.
Qed.

(** Subtracting a non-negative number does not increase a finite
    non-negative one. *)
Lemma SFsub_le s y :
  valid_binary s = true → SFnonneg s → s ≠ S754_infinity false → SFnonneg y →
  SFleb (SF64sub s y) s = true.
Proof.
  intros Hv Hs Hinf Hy.
  destruct s as [[]|[]| |[] ms es], y as [[]|[]| |[] my ey]; try done.
  - by apply SFleb_refl.
  - by apply SFleb_refl.
  - by apply SFsub_finite_le.
Qed.

(** The product of a non-negative number and a positive finite constant
    is non-negative, in particular not NaN. *)
Lemma SFmul_nonneg x mc ec :
  SFnonneg x → SFnonneg (SF64mul x (S754_finite false mc ec)).
Proof.
  intros Hx. destruct x as [[]|[]| |[] mx ex]; try done.
  unfold SF64mul, SFmul. cbn [xorb].
  pose proof (binary_round_aux_signed false (mx * mc) (ex + ec)) as Hsign.
  by destruct (binary_round_aux prec emax false (Z.pos (mx * mc)) (ex + ec)
                 loc_Exact) as [[]|[]| |[]].
Qed.

End rounding.

(** ** Bounds on the float operations of the update *)

Lemma leb_not_nan x y :
  (x <=? y)%float = true → is_nan x = false ∧ is_nan y = false.
Proof.
  rewrite FloatAxioms.leb_spec, !is_nan_Prim2SF. unfold SFleb.
  by destruct (Prim2SF x) as [[]|[]| |[]], (Prim2SF y) as [[]|[]| |[]].
Qed.

Lemma ltb_leb x y : (x <? y)%float = true → (x <=? y)%float = true.
Proof.
  rewrite FloatAxioms.ltb_spec, FloatAxioms.leb_spec. unfold SFltb, SFleb.
  by destruct (SFcompare (Prim2SF x) (Prim2SF y)) as [[]|].
Qed.

Lemma leb_trans x y z :
  (x <=? y)%float = true → (y <=? z)%float = true → (x <=? z)%float = true.
Proof.
  intros Hxy Hyz.
  destruct (leb_not_nan _ _ Hxy) as [Hx Hy].
  destruct (leb_not_nan _ _ Hyz) as [_ Hz].
  apply leb_rank in Hxy, Hyz; [|done..]. apply leb_rank; [done..|].
  by_rank x y. destruct (rank z) as [[??]?]. simpl in *. lia.
Qed.

Lemma leb_zero_nonneg x : (0 <=? x)%float = true ↔ SFnonneg (Prim2SF x).
Proof.
  rewrite FloatAxioms.leb_spec.
  assert (H0 : Prim2SF 0 = S754_zero false) by by vm_compute.
  rewrite H0. unfold SFleb.
  by destruct (Prim2SF x) as [[]|[]| |[]].
Qed.

Lemma float_mul_nonneg i c mc ec :
  Prim2SF c = S754_finite false mc ec →
  (0 <=? i)%float = true → (0 <=? i * c)%float = true.
Proof.
  intros Hc. rewrite !leb_zero_nonneg, mul_spec, Hc. apply SFmul_nonneg.
Qed.

Lemma float_add_ge s y :
  (0 <=? s)%float = true → (0 <=? y)%float = true →
  (s <=? s + y)%float = true.
Proof.
  rewrite !leb_zero_nonneg, FloatAxioms.leb_spec, add_spec.
  apply SFadd_ge, Prim2SF_valid.
Qed.

Lemma float_sub_le s y :
  (0 <=? s)%float = true → (s <=? 1)%float = true → (0 <=? y)%float = true →
  (s - y <=? s)%float = true.
Proof.
  rewrite !leb_zero_nonneg, !FloatAxioms.leb_spec, sub_spec.
  intros Hs H1 Hy. apply SFsub_le; [apply Prim2SF_valid|done| |done].
  intros Hinf. rewrite Hinf in H1. by vm_compute in H1.
Qed.

Lemma leb_refl x : is_nan x = false → (x <=? x)%float = true.
Proof. intros. apply leb_rank; [done..|]. unfold lex_lt. lia. Qed.

(** On numbers, Python's [min] and [max] are the least and the greatest
    of their two arguments. *)
Lemma min_is_least a b :
  is_nan a = false → is_nan b = false →
  (Py.min a b <=? a)%float = true ∧ (Py.min a b <=? b)%float = true
  ∧ (Py.min a b = a ∨ Py.min a b = b).
Proof.
  intros Ha Hb. unfold Py.min. destruct (b <? a)%float eqn:E.
  - split_and!; [by apply ltb_leb|by apply leb_refl|by right].
  - split_and!; [by apply leb_refl|by apply ltb_false_leb|by left].
Qed.

Lemma max_is_greatest a b :
  is_nan a = false → is_nan b = false →
  (a <=? Py.max a b)%float = true ∧ (b <=? Py.max a b)%float = true
  ∧ (Py.max a b = a ∨ Py.max a b = b).
Proof.
  intros Ha Hb. unfold Py.max. destruct (a <? b)%float eqn:E.
  - split_and!; [by apply ltb_leb|by apply leb_refl|by right].
  - split_and!; [by apply leb_refl|by apply ltb_false_leb|by left].
Qed.

(** C6: for a score in [0.0, 1.0] and an impact >= 0, a success update
    yields a score that is <= 1.0 and >= the prior score, and a failure
    update yields a score that is >= 0.0 and <= the prior score; either
    way the new score is again in [0.0, 1.0]. *)
Theorem update_effectiveness_stays_in_range self impact w :
  let s := ContextItem.effectiveness_score (heap w self) in
  (0 <=? s)%float = true → (s <=? 1)%float = true →
  (0 <=? impact)%float = true →
  let up := ContextItem.effectiveness_score
              (heap (update_effectiveness self true impact w).2 self) in
  let down := ContextItem.effectiveness_score
                (heap (update_effectiveness self false impact w).2 self) in
  ((up <=? 1)%float = true ∧ (s <=? up)%float = true)
  ∧ ((0 <=? down)%float = true ∧ (down <=? s)%float = true)
  ∧ ((0 <=? up)%float = true ∧ (down <=? 1)%float = true).
Proof.
  intros s Hs0 Hs1 Hi up down.
  assert (Hup : (up <=? 1)%float = true ∧ (s <=? up)%float = true).
  { subst up. rewrite update_effectiveness_heap, decide_True by done.
    cbn [ContextItem.effectiveness_score set_updated_at set_effectiveness_score].
    fold s. unfold Py.min.
    assert (Hy : (0 <=? impact * 0.1)%float = true).
    { eapply float_mul_nonneg; [|done]. by vm_compute. }
    pose proof (float_add_ge s _ Hs0 Hy) as Hge.
    destruct (s + impact * 0.1 <? 1)%float eqn:Hlt.
    - split; [by apply ltb_leb|done].
    - split; [by vm_compute|done]. }
  assert (Hdown : (0 <=? down)%float = true ∧ (down <=? s)%float = true).
  { subst down. rewrite update_effectiveness_heap, decide_True by done.
    cbn [ContextItem.effectiveness_score set_updated_at set_effectiveness_score].
    fold s. unfold Py.max.
    assert (Hy : (0 <=? impact * 0.05)%float = true).
    { eapply float_mul_nonneg; [|done]. by vm_compute. }
    pose proof (float_sub_le s _ Hs0 Hs1 Hy) as Hle.
    destruct (0 <? s - impact * 0.05)%float eqn:Hlt.
    - split; [by apply ltb_leb|done].
    - split; [by vm_compute|done]. }
  destruct Hup, Hdown. split_and!; try done.
  - by apply (leb_trans _ s).
  - by apply (leb_trans _ s).
Qed.

Lemma update_effectiveness_stays_in_range_witness :
  (0 <=? ContextItem.effectiveness_score (heap (test_world 0.5) 0))%float = true
  ∧ (ContextItem.effectiveness_score
       (heap (update_effectiveness 0 true 1.0 (test_world 0.5)).2 0)
     <=? 1)%float = true
  ∧ (0 <=? ContextItem.effectiveness_score
             (heap (update_effectiveness 0 false 1.0 (test_world 0.5)).2 0))%float
    = true.
Proof.
  destruct (update_effectiveness_stays_in_range 0 1.0 (test_world 0.5)
              eq_refl eq_refl eq_refl) as ([Hup _] & [Hdown _] & _).
  split_and!; [reflexivity|exact Hup|exact Hdown].
Defined.

(** [refine_context] keeps a collection of distinct objects one. *)
Lemma refine_keeps_distinct self w :
  NoDup (ACEFramework.context self) →
  NoDup (ACEFramework.context (ACEFramework.refine_context self w).1).
Proof.
  intros Hnd. rewrite refine_context_retained.
  eapply sublist_NoDup; [|apply sublist_take].
  by rewrite sorted_Permutation.
Qed.

(** ** Keys of finite scores and priorities *)

Lemma is_finite_Prim2SF x :
  is_finite x = true →
  match Prim2SF x with
  | S754_zero _ | S754_finite _ _ _ => True
  | _ => False
  end.
Proof.
  unfold is_finite, is_infinity. intros H.
  apply negb_true_iff, orb_false_elim in H as [Hnan Hinf].
  apply is_nan_Prim2SF in Hnan.
  rewrite FloatAxioms.eqb_spec, abs_spec in Hinf.
  assert (Hi : Prim2SF infinity = S754_infinity false) by by vm_compute.
  rewrite Hi in Hinf.
  by destruct (Prim2SF x) as [[]|[]| |[]].
Qed.

(** The product of two finite floats is not NaN (it may overflow to an
    infinity): the sort key of an item whose score and priority are real
    numbers is never NaN. *)
Lemma score_key_not_nan h x :
  is_finite (ContextItem.effectiveness_score (h x)) = true →
  is_finite (ContextItem.priority (h x)) = true →
  is_nan (ACEFramework.score_key h x) = false.
Proof.
  intros Hs Hp. apply is_finite_Prim2SF in Hs, Hp.
  unfold ACEFramework.score_key. rewrite is_nan_Prim2SF, mul_spec.
  destruct (Prim2SF (ContextItem.effectiveness_score (h x)))
    as [sx|sx| |sx mx ex]; try done;
  destruct (Prim2SF (ContextItem.priority (h x)))
    as [sy|sy| |sy my ey]; try done.
  unfold SF64mul, SFmul.
  pose proof (binary_round_aux_signed (xorb sx sy) (mx * my) (ex + ey)) as Hsign.
  by destruct (binary_round_aux prec emax (xorb sx sy) (Z.pos (mx * my))
                 (ex + ey) loc_Exact).
Qed.

(** * Further properties of the code *)

(** ** The update at the edges of its input *)

Lemma leb_ltb_false a b : (a <=? b)%float = true → (b <? a)%float = false.
Proof.
  intros H. destruct (leb_not_nan _ _ H). by apply ltb_false_leb.
Qed.

Lemma is_nan_true_Prim2SF x : is_nan x = true ↔ Prim2SF x = S754_nan.
Proof.
  pose proof (is_nan_Prim2SF x) as H. destruct (is_nan x).
  - split; [|done]. intros _.
    destruct (Prim2SF x) eqn:E; try done; exfalso;
      (assert (true = false); [apply H; congruence|done]).
  - split; [done|]. intros E. exfalso. by apply (proj1 H).
Qed.

Lemma ltb_nan_l x y : is_nan x = true → (x <? y)%float = false.
Proof.
  rewrite is_nan_true_Prim2SF, FloatAxioms.ltb_spec. by intros ->.
Qed.

Lemma ltb_nan_r x y : is_nan y = true → (x <? y)%float = false.
Proof.
  rewrite is_nan_true_Prim2SF, FloatAxioms.ltb_spec. intros ->.
  by destruct (Prim2SF x) as [[]|[]| |[]].
Qed.

(** The score that a success, and a failure, of the given impact write. *)
Lemma update_effectiveness_new_score self success impact w :
  ContextItem.effectiveness_score
    (heap (update_effectiveness self success impact w).2 self)
  = if success
    then Py.min 1.0 (ContextItem.effectiveness_score (heap w self) + impact * 0.1)%float
    else Py.max 0.0 (ContextItem.effectiveness_score (heap w self) - impact * 0.05)%float.
Proof.
  rewrite update_effectiveness_heap, decide_True by done. by destruct success.
Qed.

(** X1: whatever the prior score and the impact are (negative, infinite
    or NaN included), a success update leaves a number that is <= 1.0 and
    a failure update leaves a number that is >= 0.0: each branch clamps on
    its own side and never stores NaN. *)
Theorem update_effectiveness_clamps_unconditionally self impact w :
  let up := ContextItem.effectiveness_score
              (heap (update_effectiveness self true impact w).2 self) in
  let down := ContextItem.effectiveness_score
                (heap (update_effectiveness self false impact w).2 self) in
  (up <=? 1)%float = true ∧ is_nan up = false
  ∧ (0 <=? down)%float = true ∧ is_nan down = false.
Proof.
  intros up down. subst up down. rewrite !update_effectiveness_new_score.
  unfold Py.min, Py.max.
  set (x := (ContextItem.effectiveness_score (heap w self) + impact * 0.1)%float).
  set (y := (ContextItem.effectiveness_score (heap w self) - impact * 0.05)%float).
  assert (Hup : ((if (x <? 1)%float then x else 1) <=? 1)%float = true).
  { destruct (x <? 1)%float eqn:E; [by apply ltb_leb|by vm_compute]. }
  assert (Hdown : (0 <=? (if (0 <? y)%float then y else 0))%float = true).
  { destruct (0 <? y)%float eqn:E; [by apply ltb_leb|by vm_compute]. }
  split_and!; [done|by apply leb_not_nan in Hup as [? _]
              |done|by apply leb_not_nan in Hdown as [_ ?]].
Qed.

(** X2: the bounds are fixed points: for an impact >= 0 a success update
    of a score of 1.0 leaves 1.0, and a failure update of a score of 0.0
    leaves 0.0. *)
Theorem update_effectiveness_saturates self impact w :
  (0 <=? impact)%float = true →
  (ContextItem.effectiveness_score (heap w self) = 1.0%float →
   ContextItem.effectiveness_score
     (heap (update_effectiveness self true impact w).2 self) = 1.0%float)
  ∧ (ContextItem.effectiveness_score (heap w self) = 0.0%float →
     ContextItem.effectiveness_score
       (heap (update_effectiveness self false impact w).2 self) = 0.0%float).
Proof.
  intros Hi. rewrite !update_effectiveness_new_score. split; intros ->.
  - unfold Py.min.
    assert (Hy : (0 <=? impact * 0.1)%float = true).
    { eapply float_mul_nonneg; [|done]. by vm_compute. }
    by rewrite (leb_ltb_false _ _ (float_add_ge 1 _ eq_refl Hy)).
  - unfold Py.max.
    assert (Hy : (0 <=? impact * 0.05)%float = true).
    { eapply float_mul_nonneg; [|done]. by vm_compute. }
    by rewrite (leb_ltb_false _ _ (float_sub_le 0 _ eq_refl eq_refl Hy)).
Qed.

Lemma update_effectiveness_saturates_witness :
  (0 <=? 1.0)%float = true
  ∧ ContextItem.effectiveness_score
      (heap (update_effectiveness 0 true 1.0 (test_world 1.0)).2 0) = 1.0%float
  ∧ ContextItem.effectiveness_score
      (heap (update_effectiveness 0 false 1.0 (test_world 0.0)).2 0) = 0.0%float.
Proof.
  split_and!.
  - reflexivity.
  - exact (proj1 (update_effectiveness_saturates 0 1.0 (test_world 1.0) eq_refl)
             eq_refl).
  - exact (proj2 (update_effectiveness_saturates 0 1.0 (test_world 0.0) eq_refl)
             eq_refl).
Defined.

(** X3: an impact that is NaN or +infinity sends the score straight to the
    bound of the branch, whatever the prior score: 1.0 on success, 0.0 on
    failure. *)
Theorem update_effectiveness_nan_or_infinite_impact self impact w :
  is_nan impact = true ∨ impact = infinity →
  ContextItem.effectiveness_score
    (heap (update_effectiveness self true impact w).2 self) = 1.0%float
  ∧ ContextItem.effectiveness_score
      (heap (update_effectiveness self false impact w).2 self) = 0.0%float.
Proof.
  intros Hi. rewrite !update_effectiveness_new_score. unfold Py.min, Py.max.
  set (s := ContextItem.effectiveness_score (heap w self)).
  assert (Hup : (s + impact * 0.1 <? 1)%float = false).
  { rewrite FloatAxioms.ltb_spec, add_spec, mul_spec.
    assert (Hc : Prim2SF 0.1 = S754_finite false 7205759403792794 (-56))
      by by vm_compute.
    assert (H1 : Prim2SF 1 = S754_finite false 4503599627370496 (-52))
      by by vm_compute.
    rewrite Hc, H1. destruct Hi as [Hi| ->].
    - apply is_nan_true_Prim2SF in Hi. rewrite Hi.
      by destruct (Prim2SF s) as [[]|[]| |[]].
    - assert (Hinf : Prim2SF infinity = S754_infinity false) by by vm_compute.
      rewrite Hinf. by destruct (Prim2SF s) as [[]|[]| |[]]. }
  assert (Hdown : (0 <? s - impact * 0.05)%float = false).
  { rewrite FloatAxioms.ltb_spec, sub_spec, mul_spec.
    assert (Hc : Prim2SF 0.05 = S754_finite false 7205759403792794 (-57))
      by by vm_compute.
    assert (H0 : Prim2SF 0 = S754_zero false) by by vm_compute.
    rewrite Hc, H0. destruct Hi as [Hi| ->].
    - apply is_nan_true_Prim2SF in Hi. rewrite Hi.
      by destruct (Prim2SF s) as [[]|[]| |[]].
    - assert (Hinf : Prim2SF infinity = S754_infinity false) by by vm_compute.
      rewrite Hinf. by destruct (Prim2SF s) as [[]|[]| |[]]. }
  by rewrite Hup, Hdown.
Qed.

Lemma update_effectiveness_nan_or_infinite_impact_witness :
  is_nan nan = true
  ∧ ContextItem.effectiveness_score
      (heap (update_effectiveness 0 true nan (test_world 0.5)).2 0) = 1.0%float.
Proof.
  split; [reflexivity|].
  exact (proj1 (update_effectiveness_nan_or_infinite_impact 0 nan
                  (test_world 0.5) (or_introl eq_refl))).
Defined.

(** ** What curation does to the heap *)

Lemma same_static_refl a : same_static a a.
Proof. by repeat split. Qed.

Lemma same_static_trans a b c :
  same_static a b → same_static b c → same_static a c.
Proof. unfold same_static. intros (?&?&?&?&?&?&?) (?&?&?&?&?&?&?). split_and!; congruence. Qed.

Lemma update_effectiveness_static self success impact w l :
  same_static (heap (update_effectiveness self success impact w).2 l) (heap w l).
Proof.
  rewrite update_effectiveness_heap. case_decide; [|apply same_static_refl].
  subst l. by repeat split.
Qed.

Lemma for_each_update_static (ls : list loc) success impact : ∀ w l,
  same_static
    (heap (for_each ls (λ context_item,
             update_effectiveness context_item success impact) w).2 l)
    (heap w l).
Proof.
  induction ls as [|c ls IH]; intros w l; [apply same_static_refl|].
  change (same_static
    (heap (for_each ls (λ context_item,
             update_effectiveness context_item success impact)
             (update_effectiveness c success impact w).2).2 l) (heap w l)).
  eapply same_static_trans; [apply IH|apply update_effectiveness_static].
Qed.

Lemma unused_new_insights_loop self (l : list string) : ∀ w i acc,
  let body := λ (i : nat) (insight : string) (acc : list loc),
        x ← new_ContextItem
          ("insight_" +:+ Py.str (length (ACEFramework.context self)) +:+ "_"
             +:+ Py.str i)
          insight "insight" 0.8%float;
        mret (acc ++ [x]) in
  next_loc (for_enumerate i l body acc w).2 = next_loc w + length l
  ∧ clock (for_enumerate i l body acc w).2 = clock w
  ∧ ∀ l', l' < next_loc w → heap (for_enumerate i l body acc w).2 l' = heap w l'.
Proof.
  induction l as [|x l IH]; intros w i acc body.
  { simpl. split_and!; [lia|done|done]. }
  change (for_enumerate i (x :: l) body acc w)
    with (for_enumerate (S i) l body (body i x acc w).1 (body i x acc w).2).
  destruct (IH (body i x acc w).2 (S i) (body i x acc w).1) as (Hn & Hc & Hh).
  fold body in Hn, Hc, Hh.
  assert (Hn1 : next_loc (body i x acc w).2 = S (next_loc w)) by done.
  split_and!.
  - rewrite Hn, Hn1. simpl. lia.
  - by rewrite Hc.
  - intros l' Hl'. rewrite Hh by lia.
    unfold body, mbind, M_bind, new_ContextItem, now, alloc. simpl.
    unfold insert, fn_insert. by rewrite decide_False by lia.
Qed.

(** The unused comprehension allocates one object per insight and leaves
    every object that existed alone. *)
Lemma unused_new_insights_frame self reflections w :
  next_loc (unused_new_insights self reflections w).2
    = next_loc w + length (insights reflections)
  ∧ clock (unused_new_insights self reflections w).2 = clock w
  ∧ ∀ l, l < next_loc w →
      heap (unused_new_insights self reflections w).2 l = heap w l.
Proof. apply unused_new_insights_loop. Qed.

(** Every field of an existing object other than the score and
    [updated_at] survives [curate], whatever the collection. *)
Lemma curate_static current_context new_insights reflections w l :
  l < next_loc w →
  same_static
    (heap (DeepSeekCurator.curate current_context new_insights reflections w).2 l)
    (heap w l).
Proof.
  intros Hl. rewrite curate_unfold.
  set (r1 := for_enumerate 0 new_insights _ current_context w).
  set (r2 := for_enumerate 0 (recommendations reflections) _ r1.1 r1.2).
  destruct (add_items_spec "insight_" "insight" 0.8%float new_insights 0
              current_context w) as (_ & Hn1 & _ & _ & Hold1 & _).
  fold r1 in Hn1, Hold1.
  destruct (add_items_spec "strategy_" "strategy" 0.7%float
              (recommendations reflections) 0 r1.1 r1.2)
    as (_ & _ & _ & _ & Hold2 & _).
  fold r2 in Hold2.
  assert (Hr2 : heap r2.2 l = heap w l) by (rewrite Hold2, Hold1; [done|lia..]).
  cbn [snd]. case_bool_decide.
  - rewrite <- Hr2. apply for_each_update_static.
  - rewrite Hr2. apply same_static_refl.
Qed.

(** The score of every item of the collection [curate] returns, when the
    collection holds distinct allocated objects. *)
Lemma curate_scores current_context new_insights reflections w :
  NoDup current_context →
  (∀ l, l ∈ current_context → l < next_loc w) →
  let r := DeepSeekCurator.curate current_context new_insights reflections w in
  ∀ l, l ∈ r.1 →
    let prior := if decide (l < next_loc w)
                 then ContextItem.effectiveness_score (heap w l)
                 else 0.5%float in
    ContextItem.effectiveness_score (heap r.2 l)
    = if bool_decide (failures reflections ≠ [])
      then Py.max 0.0 (prior - 0.025)%float else prior.
Proof.
  intros Hnd Halloc r. subst r. rewrite curate_unfold.
  set (r1 := for_enumerate 0 new_insights _ current_context w).
  set (r2 := for_enumerate 0 (recommendations reflections) _ r1.1 r1.2).
  destruct (add_items_spec "insight_" "insight" 0.8%float new_insights 0
              current_context w) as (Hl1 & Hn1 & _ & _ & Hold1 & Hnew1).
  fold r1 in Hl1, Hn1, Hold1, Hnew1.
  destruct (add_items_spec "strategy_" "strategy" 0.7%float
              (recommendations reflections) 0 r1.1 r1.2)
    as (Hl2 & _ & _ & _ & Hold2 & Hnew2).
  fold r2 in Hl2, Hold2, Hnew2.
  rewrite Hn1 in Hl2, Hold2, Hnew2. rewrite Hl1, <- app_assoc in Hl2.
  cbn [fst snd]. intros l Hl.
  assert (Hprior : ContextItem.effectiveness_score (heap r2.2 l)
            = if decide (l < next_loc w)
              then ContextItem.effectiveness_score (heap w l) else 0.5%float).
  { rewrite Hl2 in Hl. case_decide as Hlt.
    - by rewrite Hold2, Hold1 by lia.
    - apply elem_of_app in Hl as [Hl|Hl]; [apply Halloc in Hl; lia|].
      apply elem_of_app in Hl as [Hl|Hl]; apply elem_of_seq in Hl.
      + destruct (lookup_lt_is_Some_2 new_insights (l - next_loc w))
          as [x Hx]; [lia|].
        rewrite Hold2 by lia.
        replace l with (next_loc w + (l - next_loc w)) by lia.
        by rewrite (Hnew1 _ x Hx).
      + destruct (lookup_lt_is_Some_2 (recommendations reflections)
                    (l - (next_loc w + length new_insights)))
          as [x Hx]; [lia|].
        replace l with (next_loc w + length new_insights
                        + (l - (next_loc w + length new_insights))) by lia.
        by rewrite (Hnew2 _ x Hx). }
  cbv zeta. rewrite <- Hprior.
  case_bool_decide; [|done].
  assert (Hnd2 : NoDup r2.1) by (rewrite Hl2; by apply fresh_refs_distinct).
  destruct (penalise_all_spec r2.1 r2.2 Hnd2) as (_ & _ & _ & _ & Hin).
  apply list_elem_of_lookup in Hl as [k Hk]. by rewrite (Hin k l Hk).
Qed.

(** ** A learning step of the orchestrator with [DeepSeekCurator] *)

Lemma curate_context_deepseek current_context history reflections w :
  let self := deepseek_engine current_context history in
  let w0 := (unused_new_insights self reflections w).2 in
  let c := DeepSeekCurator.curate current_context (insights reflections)
             reflections w0 in
  let r := ACEFramework.curate_context self reflections w in
  r.2 = c.2
  ∧ r.1.1 = ACEFramework.context r.1.2
  ∧ r.1.1 = (if bool_decide (20 < length c.1)
             then take (10 `max` (length c.1 `div` 2))
                    (Py.sorted c.1 (ACEFramework.score_key (heap c.2)) true)
             else c.1)
  ∧ ACEFramework.execution_history r.1.2 = history.
Proof.
  intros self w0 c r. subst r. rewrite curate_context_unfold. cbv zeta.
  change (curate (ACEFramework.curator self) (ACEFramework.context self)
            (insights reflections) reflections
            (for_enumerate 0 (insights reflections) _ [] w).2) with c.
  case_bool_decide; [|done].
  split_and!; try done. cbn [fst snd].
  rewrite refine_context_retained.
  by rewrite (Permutation_length (sorted_Permutation c.1 _ true)).
Qed.

Lemma penalty_bounds s :
  in_unit_range s →
  in_unit_range (Py.max 0.0 (s - 0.025))%float
  ∧ (Py.max 0.0 (s - 0.025) <=? s)%float = true.
Proof.
  intros [H0 H1].
  pose proof (float_sub_le s 0.025 H0 H1 eq_refl) as Hle.
  unfold Py.max. destruct (0 <? s - 0.025)%float eqn:E.
  - split; [split|done]; [by apply ltb_leb|by apply (leb_trans _ s)].
  - by repeat split.
Qed.

(** X4: a learning step on [n0] items with [k] insights and
    recommendations leaves [n0 + k] items when that is at most 20 and
    [max(10, (n0 + k) // 2)] items otherwise; so a collection of at most
    20 items that is fed at most 20 entries never exceeds 20 items, and
    below the threshold the old items stay in front, in order. *)
Theorem curate_context_size current_context history reflections w :
  let r := ACEFramework.curate_context
             (deepseek_engine current_context history) reflections w in
  let n := length current_context + length (insights reflections)
           + length (recommendations reflections) in
  length r.1.1 = (if bool_decide (20 < n) then 10 `max` (n `div` 2) else n)
  ∧ (n ≤ 20 → current_context `prefix_of` r.1.1)
  ∧ (length current_context ≤ 20 →
     length (insights reflections) + length (recommendations reflections) ≤ 20 →
     length r.1.1 ≤ 20).
Proof.
  intros r n.
  destruct (curate_context_deepseek current_context history reflections w)
    as (_ & _ & Hr & _). fold r in Hr.
  destruct (curate_result current_context (insights reflections) reflections
              (unused_new_insights (deepseek_engine current_context history)
                 reflections w).2) as [Hc _].
  assert (Hlen : length (DeepSeekCurator.curate current_context
                   (insights reflections) reflections
                   (unused_new_insights (deepseek_engine current_context history)
                      reflections w).2).1 = n).
  { rewrite Hc, !length_app, !length_seq. lia. }
  rewrite Hlen in Hr.
  assert (Hsize : length r.1.1
            = if bool_decide (20 < n) then 10 `max` (n `div` 2) else n).
  { rewrite Hr. case_bool_decide as Hn; [|done].
    rewrite length_take,
      (Permutation_length (sorted_Permutation _ _ true)), Hlen.
    pose proof (Nat.Div0.div_le_upper_bound n 2 n). lia. }
  split_and!; [done| |].
  - intros Hn. rewrite Hr, bool_decide_eq_false_2, Hc by lia.
    by apply prefix_app_r.
  - intros Hn0 Hk. rewrite Hsize. case_bool_decide; [|lia].
    assert (n `div` 2 ≤ 20) by (apply Nat.Div0.div_le_upper_bound; lia). lia.
Qed.

(** X5: a collection of distinct allocated objects is one again after a
    learning step: curation appends only new objects and pruning only
    drops entries. *)
Theorem curate_context_keeps_distinct current_context history reflections w :
  NoDup current_context →
  (∀ l, l ∈ current_context → l < next_loc w) →
  let r := ACEFramework.curate_context
             (deepseek_engine current_context history) reflections w in
  NoDup r.1.1 ∧ ∀ l, l ∈ r.1.1 → l < next_loc r.2.
Proof.
  intros Hnd Halloc r.
  destruct (curate_context_deepseek current_context history reflections w)
    as (Hw & _ & Hr & _). fold r in Hw, Hr.
  destruct (unused_new_insights_frame (deepseek_engine current_context history)
              reflections w) as (Hn0 & _ & _).
  destruct (curate_keeps_distinct current_context (insights reflections)
              reflections _ Hnd
              (λ l Hl, Nat.lt_le_trans _ _ _ (Halloc l Hl)
                 (eq_ind_r (λ n, next_loc w ≤ n) (Nat.le_add_r _ _) Hn0)))
    as [Hnd' Halloc'].
  rewrite Hw, Hr. case_bool_decide; [|done]. split.
  - eapply sublist_NoDup; [|apply sublist_take]. by rewrite sorted_Permutation.
  - intros l Hl. apply Halloc'.
    apply (subseteq_take _ _ l) in Hl. by rewrite sorted_Permutation in Hl.
Qed.

Lemma curate_context_keeps_distinct_witness :
  NoDup (seq 0 20)
  ∧ NoDup (ACEFramework.curate_context (deepseek_engine (seq 0 20) [])
             one_insight seed_world).1.1.
Proof.
  split; [apply NoDup_seq|].
  refine (proj1 (curate_context_keeps_distinct (seq 0 20) [] one_insight
                   seed_world (NoDup_seq 0 20) _)).
  intros l Hl. apply elem_of_seq in Hl. simpl. lia.
Defined.

(** The scores after a learning step, over the collection as curated
    (before pruning), of which both the old and the resulting collection
    are part. *)
Lemma curate_context_scores current_context history reflections w :
  NoDup current_context →
  (∀ l, l ∈ current_context → l < next_loc w) →
  let r := ACEFramework.curate_context
             (deepseek_engine current_context history) reflections w in
  ∃ curated : list loc,
    r.1.1 ⊆ curated ∧ current_context ⊆ curated
    ∧ ∀ l, l ∈ curated →
        let prior := if decide (l ∈ current_context)
                     then ContextItem.effectiveness_score (heap w l)
                     else 0.5%float in
        ContextItem.effectiveness_score (heap r.2 l)
        = if bool_decide (failures reflections ≠ [])
          then Py.max 0.0 (prior - 0.025)%float else prior.
Proof.
  intros Hnd Halloc r.
  destruct (curate_context_deepseek current_context history reflections w)
    as (Hw & _ & Hr & _). fold r in Hw, Hr.
  destruct (unused_new_insights_frame (deepseek_engine current_context history)
              reflections w) as (Hn0 & _ & Hh0).
  set (w0 := (unused_new_insights (deepseek_engine current_context history)
                reflections w).2) in *.
  assert (Halloc0 : ∀ l, l ∈ current_context → l < next_loc w0).
  { intros l Hl. apply Halloc in Hl. lia. }
  pose proof (curate_scores current_context (insights reflections) reflections
                w0 Hnd Halloc0) as Hs.
  destruct (curate_result current_context (insights reflections) reflections w0)
    as [Hc _].
  set (c := DeepSeekCurator.curate current_context (insights reflections)
              reflections w0) in *.
  exists c.1. split_and!.
  - rewrite Hr. destruct (bool_decide (20 < length c.1)); [|by intros ??].
    intros x Hx. apply (subseteq_take _ _ x) in Hx.
    by rewrite sorted_Permutation in Hx.
  - rewrite Hc. intros l Hl. apply elem_of_app. by left.
  - intros l Hl. cbv zeta. rewrite Hw, (Hs l Hl).
    assert (Hprior : (if decide (l < next_loc w0)
                      then ContextItem.effectiveness_score (heap w0 l)
                      else 0.5%float)
                     = if decide (l ∈ current_context)
                       then ContextItem.effectiveness_score (heap w l)
                       else 0.5%float).
    { destruct (decide (l ∈ current_context)) as [Hin|Hout].
      - rewrite decide_True by auto. rewrite Hh0; [done|auto].
      - rewrite decide_False; [done|].
        rewrite Hc in Hl. apply elem_of_app in Hl as [Hl|Hl]; [done|].
        apply elem_of_app in Hl as [Hl|Hl]; apply elem_of_seq in Hl; lia. }
    by rewrite Hprior.
Qed.

(** X6: if the collection holds distinct allocated objects whose scores
    all lie in [0.0, 1.0], then after a learning step every item of the
    collection, old or new, again has a score in [0.0, 1.0]. *)
Theorem curate_context_keeps_scores_in_range
    current_context history reflections w :
  NoDup current_context →
  (∀ l, l ∈ current_context → l < next_loc w) →
  (∀ l, l ∈ current_context →
     in_unit_range (ContextItem.effectiveness_score (heap w l))) →
  let r := ACEFramework.curate_context
             (deepseek_engine current_context history) reflections w in
  ∀ l, l ∈ r.1.1 →
    in_unit_range (ContextItem.effectiveness_score (heap r.2 l)).
Proof.
  intros Hnd Halloc Hrange r l Hl.
  destruct (curate_context_scores current_context history reflections w
              Hnd Halloc) as (curated & Hsub & _ & Hs).
  fold r in Hsub, Hs. rewrite (Hs l (Hsub l Hl)).
  assert (Hprior : in_unit_range
            (if decide (l ∈ current_context)
             then ContextItem.effectiveness_score (heap w l) else 0.5%float)).
  { case_decide; [by apply Hrange|by split]. }
  case_bool_decide; [|done]. by apply penalty_bounds.
Qed.

Lemma curate_context_keeps_scores_in_range_witness :
  NoDup (seq 0 20)
  ∧ in_unit_range
      (ContextItem.effectiveness_score
         (heap (ACEFramework.curate_context (deepseek_engine (seq 0 20) [])
                  (test_reflection true) seed_world).2 0)).
Proof.
  split; [apply NoDup_seq|].
  refine (curate_context_keeps_scores_in_range (seq 0 20) []
            (test_reflection true) seed_world (NoDup_seq 0 20) _ _ 0 _).
  - intros l Hl. apply elem_of_seq in Hl. simpl. lia.
  - intros l _. by split.
  - apply (bool_decide_unpack _). by vm_compute.
Defined.

(** X7: under the same conditions a learning step never raises the score
    of an item that was in the collection, whether the item is then kept
    or pruned: the orchestrator only ever reports failures to its
    items. *)
Theorem curate_context_never_raises_a_score
    current_context history reflections w :
  NoDup current_context →
  (∀ l, l ∈ current_context → l < next_loc w) →
  (∀ l, l ∈ current_context →
     in_unit_range (ContextItem.effectiveness_score (heap w l))) →
  let r := ACEFramework.curate_context
             (deepseek_engine current_context history) reflections w in
  ∀ l, l ∈ current_context →
    (ContextItem.effectiveness_score (heap r.2 l)
       <=? ContextItem.effectiveness_score (heap w l))%float = true.
Proof.
  intros Hnd Halloc Hrange r l Hl.
  destruct (curate_context_scores current_context history reflections w
              Hnd Halloc) as (curated & _ & Hsub & Hs).
  fold r in Hs. rewrite (Hs l (Hsub l Hl)), decide_True by done.
  case_bool_decide.
  - by apply penalty_bounds, Hrange.
  - apply leb_refl. by destruct (leb_not_nan _ _ (proj1 (Hrange l Hl))).
Qed.

Lemma curate_context_never_raises_a_score_witness :
  NoDup (seq 0 20)
  ∧ (ContextItem.effectiveness_score
       (heap (ACEFramework.curate_context (deepseek_engine (seq 0 20) [])
                (test_reflection true) seed_world).2 19)
     <=? ContextItem.effectiveness_score (heap seed_world 19))%float = true.
Proof.
  split; [apply NoDup_seq|].
  refine (curate_context_never_raises_a_score (seq 0 20) []
            (test_reflection true) seed_world (NoDup_seq 0 20) _ _ 19 _).
  - intros l Hl. apply elem_of_seq in Hl. simpl. lia.
  - intros l _. by split.
  - apply elem_of_seq. lia.
Defined.

(** X8: a learning step never touches the id, content, category,
    priority, creation time, usage count or metadata of any object that
    existed before it, whatever the collection lists. *)
Theorem curate_context_keeps_static_fields
    current_context history reflections w l :
  l < next_loc w →
  same_static
    (heap (ACEFramework.curate_context
             (deepseek_engine current_context history) reflections w).2 l)
    (heap w l).
Proof.
  intros Hl.
  destruct (curate_context_deepseek current_context history reflections w)
    as (Hw & _).
  destruct (unused_new_insights_frame (deepseek_engine current_context history)
              reflections w) as (Hn0 & _ & Hh0).
  rewrite Hw, <- (Hh0 l Hl). apply curate_static. lia.
Qed.

Lemma curate_context_keeps_static_fields_witness :
  0 < next_loc seed_world
  ∧ ContextItem.usage_count
      (heap (ACEFramework.curate_context (deepseek_engine (seq 0 20) [])
               (test_reflection true) seed_world).2 0) = 0%Z.
Proof.
  split; [simpl; lia|].
  destruct (curate_context_keeps_static_fields (seq 0 20) []
              (test_reflection true) seed_world 0)
    as (_ & _ & _ & _ & _ & Hu & _); [simpl; lia|].
  exact Hu.
Defined.

(** ** Queries on the collection *)

Lemma sum_list_Permutation (l1 l2 : list nat) :
  l1 ≡ₚ l2 → sum_list l1 = sum_list l2.
Proof. induction 1; simpl; lia. Qed.

Lemma filter_all {A} (P : A → Prop) `{!∀ x, Decision (P x)} (l : list A) :
  Forall P l → filter P l = l.
Proof.
  induction 1 as [|x l Hx _ IH]; [done|].
  by rewrite filter_cons_True, IH.
Qed.

Lemma filter_nonempty {A} (P : A → Prop) `{!∀ x, Decision (P x)} (l : list A) :
  0 < length (filter P l) ↔ ∃ x, x ∈ l ∧ P x.
Proof.
  split.
  - destruct (filter P l) as [|y l'] eqn:E; [simpl; lia|]. intros _.
    assert (Hy : y ∈ filter P l) by (rewrite E; left).
    apply list_elem_of_filter in Hy as [??]. eauto.
  - intros (x & Hx & HP).
    assert (Hy : x ∈ filter P l) by by apply list_elem_of_filter.
    destruct (filter P l); [by apply not_elem_of_nil in Hy|simpl; lia].
Qed.

Lemma class_count_add {A} (f : A → string) (l : list A) (k : string)
    (S : gset string) :
  k ∉ S →
  length (filter (λ x, f x = k) l) + length (filter (λ x, f x ∈ S) l)
  = length (filter (λ x, f x ∈ {[k]} ∪ S) l).
Proof.
  intros Hk. induction l as [|x l IHl]; [done|].
  rewrite !(filter_cons _ x).
  destruct (decide (f x = k)) as [Hx|Hx], (decide (f x ∈ S)) as [HS|HS],
    (decide (f x ∈ {[k]} ∪ S)) as [HU|HU]; simpl; try lia; exfalso;
    rewrite elem_of_union, elem_of_singleton in HU;
    try rewrite Hx in HS; tauto.
Qed.

(** Counting the elements of a list class by class, over any finite set
    of classes. *)
Lemma sum_of_class_counts {A} (f : A → string) (l : list A) (S : gset string) :
  sum_list ((λ k, length (filter (λ x, f x = k) l)) <$> elements S)
  = length (filter (λ x, f x ∈ S) l).
Proof.
  induction S as [|k S Hk IH] using set_ind_L.
  - rewrite elements_empty. simpl.
    induction l as [|x l IHl]; [done|].
    rewrite filter_cons_False; [done|set_solver].
  - etrans; [apply sum_list_Permutation, fmap_Permutation,
              elements_union_singleton, Hk|].
    rewrite fmap_cons. cbn [sum_list sum_list_with]. rewrite IH.
    by apply class_count_add.
Qed.

(** X9: the snapshot of [get_context_state] is consistent: the item list
    has [total_items] entries, the category counts add up to
    [total_items], a category has an entry exactly when some item carries
    it and the entry is then the (positive) length of
    [get_context_by_category] for it; the call changes nothing. *)
Theorem get_context_state_consistent self w :
  let st := (get_context_state self w).1 in
  total_items st = length (ACEFramework.context self)
  ∧ length (items st) = total_items st
  ∧ sum_list (map_to_list (by_category st)).*2 = total_items st
  ∧ (∀ cat n, by_category st !! cat = Some n ↔
       n = length (get_context_by_category self cat w).1 ∧ 0 < n)
  ∧ (get_context_state self w).2 = w.
Proof.
  intros st. subst st. cbn [get_context_state fst snd total_items items
                             by_category].
  set (cats := (λ item, ContextItem.category (heap w item))
                 <$> ACEFramework.context self).
  set (pairs := (λ cat, (cat, length (get_context_by_category self cat w).1))
                  <$> elements (list_to_set cats : gset string)).
  assert (Hfst : pairs.*1 = elements (list_to_set cats : gset string)).
  { unfold pairs. rewrite <- list_fmap_compose. apply list_fmap_id. }
  assert (Hnd : NoDup pairs.*1) by (rewrite Hfst; apply NoDup_elements).
  split_and!; [done|by rewrite length_fmap| | |done].
  - etrans; [apply sum_list_Permutation, fmap_Permutation,
              map_to_list_to_map, Hnd|].
    unfold pairs. rewrite <- list_fmap_compose.
    etrans; [apply (sum_of_class_counts
      (λ item, ContextItem.category (heap w item)))|].
    f_equal. apply filter_all. apply Forall_forall. intros x Hx.
    apply elem_of_list_to_set, list_elem_of_fmap. eauto.
  - intros cat n. rewrite <- (elem_of_list_to_map pairs cat n Hnd).
    unfold pairs. rewrite list_elem_of_fmap.
    cbn [get_context_by_category fst].
    assert (Hin : ∀ c, c ∈ elements (list_to_set cats : gset string) ↔
      0 < length (filter (λ item, ContextItem.category (heap w item) = c)
                    (ACEFramework.context self))).
    { intros c. rewrite filter_nonempty, elem_of_elements,
        elem_of_list_to_set. unfold cats. rewrite list_elem_of_fmap.
      split; intros (x & ? & ?); eauto. }
    split.
    + intros (c & Heq & Hc). injection Heq as <- ->. split; [done|].
      by apply Hin.
    + intros [-> Hpos]. exists cat. split; [done|]. by apply Hin.
Qed.


(** ** Refining twice *)

Section sort_local.
Context {A : Type} (lt : A → A → bool).
Hypothesis lt_asym : ∀ x y, lt x y = true → lt y x = false.

(** [a] may stand right before [b] in ascending order. *)
Let asc (a b : A) : Prop := lt b a = false.

Lemma insert_locally_sorted x l :
  Sorted asc l → Sorted asc (Py.insert lt x l).
Proof.
  induction 1 as [|y l Hs IH Hy]; simpl; [by repeat constructor|].
  destruct (lt y x) eqn:Hyx.
  - constructor; [done|].
    destruct Hy as [|z l Hz]; simpl.
    + constructor. by apply lt_asym.
    + destruct (lt z x); constructor; [done|by apply lt_asym].
  - constructor; [by constructor|by constructor].
Qed.

Lemma stable_sort_locally_sorted l : Sorted asc (Py.stable_sort lt l).
Proof.
  induction l as [|x l IH]; simpl; [constructor|].
  by apply insert_locally_sorted.
Qed.

Lemma stable_sort_of_sorted l : Sorted asc l → Py.stable_sort lt l = l.
Proof.
  induction 1 as [|x l Hs IH Hx]; simpl; [done|].
  rewrite IH. destruct Hx as [|y l Hy]; simpl; [done|].
  unfold asc in Hy. by rewrite Hy.
Qed.
End sort_local.

Lemma Sorted_drop {A} (R : relation A) n l : Sorted R l → Sorted R (drop n l).
Proof.
  revert l. induction n as [|n IH]; intros [|x l] Hs; simpl; try done.
  apply IH. by apply Sorted_inv in Hs as [? _].
Qed.

Lemma ltb_asym_any x y : (x <? y)%float = true → (y <? x)%float = false.
Proof.
  intros H. destruct (is_nan x) eqn:Hx; [by rewrite ltb_nan_l in H|].
  destruct (is_nan y) eqn:Hy; [by rewrite ltb_nan_r in H|].
  by apply ltb_asym.
Qed.

(** Sorting a prefix of a descending sort again leaves it as it is. *)
Lemma sorted_take_sorted {A} (l : list A) key k :
  Py.sorted (take k (Py.sorted l key true)) key true
  = take k (Py.sorted l key true).
Proof.
  unfold Py.sorted. set (lt := λ x y, (key x <? key y)%float).
  set (s := Py.stable_sort lt (reverse l)).
  rewrite take_reverse, reverse_involutive.
  rewrite (stable_sort_of_sorted lt); [done|].
  apply Sorted_drop, stable_sort_locally_sorted.
  intros x y. apply ltb_asym_any.
Qed.

(** X10: when no key is NaN, refining a refined collection never reorders
    it: the second [refine_context] only cuts the first result down to
    [max(10, m // 2)] of its [m] items.  So refinement is idempotent
    exactly on collections of at most 21 items; a larger collection
    shrinks again. *)
Theorem refine_context_twice self w :
  Forall (λ x, is_nan (ACEFramework.score_key (heap w) x) = false)
    (ACEFramework.context self) →
  let r1 := (ACEFramework.refine_context self w).1 in
  let r2 := (ACEFramework.refine_context r1 w).1 in
  let m := length (ACEFramework.context r1) in
  ACEFramework.context r2
  = take (10 `max` (m `div` 2)) (ACEFramework.context r1)
  ∧ (r2 = r1 ↔ length (ACEFramework.context self) ≤ 21).
Proof.
  intros _ r1 r2 m.
  assert (Hr2 : ACEFramework.context r2
    = take (10 `max` (m `div` 2)) (ACEFramework.context r1)).
  { subst r2 m. unfold ACEFramework.refine_context at 1.
    cbn [fst ACEFramework.context ACEFramework.set_context].
    rewrite (Permutation_length (sorted_Permutation _ _ _)).
    f_equal. subst r1. unfold ACEFramework.refine_context.
    cbn [fst ACEFramework.context ACEFramework.set_context].
    apply sorted_take_sorted. }
  split; [done|].
  assert (Hm : m = length (ACEFramework.context self)
                   `min` (10 `max` (length (ACEFramework.context self) `div` 2))).
  { subst m r1. unfold ACEFramework.refine_context.
    cbn [fst ACEFramework.context ACEFramework.set_context].
    rewrite length_take, (Permutation_length (sorted_Permutation _ _ _)).
    lia. }
  assert (Heq : r2 = r1 ↔ ACEFramework.context r2 = ACEFramework.context r1).
  { split; [by intros ->|]. intros Hc.
    subst r2. unfold ACEFramework.refine_context in Hc |- *.
    cbn [fst ACEFramework.context ACEFramework.set_context] in Hc |- *.
    unfold ACEFramework.set_context. rewrite Hc. by destruct r1. }
  rewrite Heq, Hr2.
  pose proof (Nat.div_mod_eq m 2) as Hdm.
  pose proof (Nat.mod_upper_bound m 2) as Hmm.
  pose proof (Nat.div_mod_eq (length (ACEFramework.context self)) 2) as Hdn.
  pose proof (Nat.mod_upper_bound (length (ACEFramework.context self)) 2)
    as Hmn.
  split.
  - intros Ht. apply (f_equal length) in Ht. rewrite length_take in Ht.
    fold m in Ht. lia.
  - intros Hn. apply take_ge. fold m. lia.
Qed.

Lemma refine_context_twice_witness :
  Forall (λ x, is_nan (ACEFramework.score_key (heap ranked_world) x) = false)
    (ACEFramework.context (ranked_engine 12))
  ∧ (ACEFramework.refine_context
       (ACEFramework.refine_context (ranked_engine 12) ranked_world).1
       ranked_world).1
    = (ACEFramework.refine_context (ranked_engine 12) ranked_world).1.
Proof.
  assert (Hok : Forall
    (λ x, is_nan (ACEFramework.score_key (heap ranked_world) x) = false)
    (ACEFramework.context (ranked_engine 12))).
  { repeat (constructor; [by vm_compute|]). constructor. }
  split; [exact Hok|].
  apply (proj2 (refine_context_twice (ranked_engine 12) ranked_world Hok)).
  simpl. lia.
Defined.


(** ** The states an agent reaches *)

Lemma initial_agent w0 :
  let n := next_loc w0 in
  let r := SoccerPredictionAgent.new w0 in
  r.1 = deepseek_engine [n; S n; S (S n); S (S (S n))] []
  ∧ next_loc r.2 = n + 4.
Proof.
  intros n r. split; [done|]. simpl. lia.
Qed.


Lemma initial_agent_heap w0 :
  let n := next_loc w0 in
  ∃ b1 b2 b3 b4,
    heap (SoccerPredictionAgent.new w0).2
    = <[S (S (S n)) := b4]> (<[S (S n) := b3]> (<[S n := b2]>
        (<[n := b1]> (heap w0))))
    ∧ ContextItem.effectiveness_score b1 = 0.85%float
    ∧ ContextItem.effectiveness_score b2 = 0.82%float
    ∧ ContextItem.effectiveness_score b3 = 0.78%float
    ∧ ContextItem.effectiveness_score b4 = 0.80%float.
Proof.
  intros n. do 4 eexists. split; [reflexivity|]. done.
Qed.

Lemma initial_agent_well_formed w0 :
  well_formed (SoccerPredictionAgent.new w0).1 (SoccerPredictionAgent.new w0).2.
Proof.
  destruct (initial_agent w0) as [Hace Hn].
  destruct (initial_agent_heap w0) as (b1 & b2 & b3 & b4 & Hh & H1 & H2 & H3 & H4).
  unfold well_formed. rewrite Hace, Hn, Hh.
  cbn [deepseek_engine ACEFramework.context ACEFramework.execution_history].
  split_and!; [done|apply (NoDup_seq (next_loc w0) 4)|].
  intros l Hl. split.
  { apply (elem_of_seq (next_loc w0) 4) in Hl. lia. }
  repeat (apply elem_of_cons in Hl as [->|Hl]);
    [..|by apply elem_of_nil in Hl];
    rewrite ?fn_lookup_insert_ne by lia; rewrite fn_lookup_insert.
  - rewrite H1. by split.
  - rewrite H2. by split.
  - rewrite H3. by split.
  - rewrite H4. by split.
Qed.

Lemma reflect_on_execution_unfold reflector self execution_trace w :
  reflect_on_execution reflector self execution_trace w
  = (((reflect reflector execution_trace (ACEFramework.context self) w).1,
      ACEFramework.Build (ACEFramework.curator self) (ACEFramework.context self)
        (ACEFramework.execution_history self ++ [execution_trace])
        (ACEFramework.refinement_threshold self)),
     (reflect reflector execution_trace (ACEFramework.context self) w).2).
Proof. reflexivity. Qed.

(** [curate_context] replaces the collection and nothing else of the
    orchestrator, whatever the curator. *)
Lemma curate_context_fields self reflections w :
  let r := ACEFramework.curate_context self reflections w in
  ACEFramework.curator r.1.2 = ACEFramework.curator self
  ∧ ACEFramework.refinement_threshold r.1.2
    = ACEFramework.refinement_threshold self
  ∧ ACEFramework.execution_history r.1.2
    = ACEFramework.execution_history self.
Proof.
  intros r. subst r. rewrite curate_context_unfold. cbv zeta.
  by destruct (bool_decide _).
Qed.

(** A learning step keeps an orchestrator well formed; it leaves the
    history alone and at least ten items, or all there were. *)
Lemma curate_context_well_formed ace reflections w :
  well_formed ace w →
  let r := ACEFramework.curate_context ace reflections w in
  well_formed r.1.2 r.2
  ∧ ACEFramework.execution_history r.1.2 = ACEFramework.execution_history ace
  ∧ length (ACEFramework.context ace) `min` 10
    ≤ length (ACEFramework.context r.1.2).
Proof.
  intros (Hace & Hnd & Hin) r.
  destruct ace as [cur ctx hist thr].
  cbn [ACEFramework.context ACEFramework.execution_history] in *.
  injection Hace as -> ->.
  change (ACEFramework.Build DeepSeekCurator.new ctx hist 0.3%float)
    with (deepseek_engine ctx hist) in r.
  assert (Halloc : ∀ l, l ∈ ctx → l < next_loc w) by (intros l Hl; by apply Hin).
  destruct (curate_context_deepseek ctx hist reflections w)
    as (Hw & Hctx & Hr & Hhist). fold r in Hw, Hctx, Hr, Hhist.
  destruct (curate_context_scores ctx hist reflections w Hnd Halloc)
    as (curated & Hsub & _ & Hs). fold r in Hsub, Hs.
  destruct (unused_new_insights_frame (deepseek_engine ctx hist) reflections w)
    as (Hn0 & _ & _).
  destruct (curate_keeps_distinct ctx (insights reflections) reflections
              (unused_new_insights (deepseek_engine ctx hist) reflections w).2
              Hnd) as [Hnd' Halloc'].
  { intros l Hl. apply Halloc in Hl. lia. }
  destruct (curate_result ctx (insights reflections) reflections
              (unused_new_insights (deepseek_engine ctx hist) reflections w).2)
    as [Hc _].
  set (c := DeepSeekCurator.curate ctx (insights reflections) reflections
              (unused_new_insights (deepseek_engine ctx hist) reflections w).2)
    in *.
  assert (Hsubc : r.1.1 ⊆ c.1).
  { rewrite Hr. destruct (bool_decide (20 < length c.1)); [|by intros ??].
    intros x Hx. apply (subseteq_take _ _ x) in Hx.
    by rewrite sorted_Permutation in Hx. }
  split_and!.
  - unfold well_formed. rewrite <- Hctx. split_and!.
    + destruct (curate_context_fields (deepseek_engine ctx hist) reflections w)
        as (Hcur & Hthr & _). fold r in Hcur, Hthr.
      rewrite Hctx. destruct r.1.2 as [cur' ctx' hist' thr'].
      cbn [ACEFramework.context ACEFramework.execution_history
           ACEFramework.curator ACEFramework.refinement_threshold] in *.
      by rewrite Hcur, Hthr.
    + rewrite Hr. destruct (bool_decide (20 < length c.1)); [|done].
      eapply sublist_NoDup; [|apply sublist_take]. by rewrite sorted_Permutation.
    + intros l Hl. split.
      * rewrite Hw. by apply Halloc', Hsubc.
      * rewrite (Hs l (Hsub l Hl)).
        assert (Hprior : in_unit_range
                  (if decide (l ∈ ctx)
                   then ContextItem.effectiveness_score (heap w l)
                   else 0.5%float)).
        { destruct (decide (l ∈ ctx)) as [Hl'|_]; [by apply Hin|by split]. }
        destruct (bool_decide (failures reflections ≠ [])); [|done].
        by apply penalty_bounds.
  - done.
  - rewrite <- Hctx, Hr.
    assert (length ctx ≤ length c.1) by (rewrite Hc, length_app; lia).
    destruct (bool_decide_reflect (20 < length c.1)); [|lia].
    rewrite length_take, (Permutation_length (sorted_Permutation _ _ true)).
    lia.
Qed.

(** X11: whatever an agent has predicted and learned, with a generator
    and a reflector that leave the items alone: its collection lists
    distinct objects, each of them allocated and with a score in
    [0.0, 1.0]; it never holds fewer than four items; and the history
    has one entry per recorded outcome. *)
Theorem agent_state_invariant generator reflector w0 n ace w :
  (∀ task context w, (generate generator task context w).2 = w) →
  (∀ execution_trace context w,
     (reflect reflector execution_trace context w).2 = w) →
  agent_state generator reflector w0 n ace w →
  NoDup (ACEFramework.context ace)
  ∧ (∀ l, l ∈ ACEFramework.context ace →
       l < next_loc w
       ∧ in_unit_range (ContextItem.effectiveness_score (heap w l)))
  ∧ 4 ≤ length (ACEFramework.context ace)
  ∧ length (ACEFramework.execution_history ace) = n.
Proof.
  intros Hgen Hrefl Hst.
  enough (well_formed ace w ∧ 4 ≤ length (ACEFramework.context ace)
          ∧ length (ACEFramework.execution_history ace) = n)
    as ((_ & ? & ?) & ? & ?) by done.
  induction Hst as [|n ace w task Hst IH|n ace w execution_trace Hst IH].
  - split; [apply initial_agent_well_formed|].
    by destruct (initial_agent w0) as [-> _].
  - unfold generate_strategies. by rewrite Hgen.
  - destruct IH as (Hwf & Hlen & Hhist).
    rewrite reflect_on_execution_unfold, Hrefl. cbn [fst snd].
    set (ace' := ACEFramework.Build _ _ _ _).
    set (reflections := (reflect reflector _ _ w).1).
    assert (Hwf' : well_formed ace' w).
    { destruct Hwf as (Hace & Hnd & Hin). split_and!; [|done..].
      subst ace'. rewrite Hace at 1 4. done. }
    destruct (curate_context_well_formed ace' reflections w Hwf')
      as (Hwf'' & Hh & Hl).
    split_and!; [done| |].
    + cbn [ACEFramework.context ace'] in Hl. lia.
    + rewrite Hh. subst ace'. cbn [ACEFramework.execution_history].
      rewrite length_app. simpl. lia.
Qed.

Lemma agent_state_invariant_witness :
  (∀ task context w, (generate MockGenerator task context w).2 = w)
  ∧ (∀ execution_trace context w,
       (reflect MockReflector execution_trace context w).2 = w)
  ∧ ∃ ace w,
      agent_state MockGenerator MockReflector seed_world 1 ace w
      ∧ 4 ≤ length (ACEFramework.context ace).
Proof.
  split; [done|]. split; [done|].
  pose (st := agent_record_outcome MockGenerator MockReflector seed_world
                0 _ _ [] (agent_init _ _ _)).
  eexists _, _. split; [exact st|].
  exact (proj1 (proj2 (proj2 (agent_state_invariant MockGenerator
    MockReflector seed_world 1 _ _ (λ _ _ _, eq_refl) (λ _ _ _, eq_refl)
    st)))).
Defined.


(** ** The ids that one curation hands out *)

Lemma pretty_N_char_not_underscore x : pretty_N_char x ≠ "_"%char.
Proof.
  unfold pretty_N_char. destruct x as [|p]; [done|].
  repeat (destruct p as [p|p|]; try done).
Qed.

Lemma pretty_N_go_no_underscore x : ∀ s,
  ¬ occurs "_" s → ¬ occurs "_" (pretty_N_go x s).
Proof.
  induction (N.lt_wf_0 x) as [x _ IH]. intros s Hs.
  destruct (decide (0 < x)%N) as [Hx|Hx].
  - rewrite pretty_N_go_step by done. apply IH.
    + apply N.div_lt; lia.
    + simpl. intros [H|H]; [by apply pretty_N_char_not_underscore in H|done].
  - replace x with 0%N by lia. by rewrite pretty_N_go_0.
Qed.

Lemma str_no_underscore (n : nat) : ¬ occurs "_" (Py.str n).
Proof.
  unfold Py.str, pretty, pretty_nat, pretty, pretty_N.
  case_decide.
  - simpl. by intros [|[]].
  - apply pretty_N_go_no_underscore. simpl. tauto.
Qed.

(** The text in front of the first underscore is determined. *)
Lemma app_underscore_inj a : ∀ a' s s',
  ¬ occurs "_" a → ¬ occurs "_" a' →
  a +:+ String "_" s = a' +:+ String "_" s' → a = a'.
Proof.
  induction a as [|c a IH]; intros [|c' a'] s s' Ha Ha' H; simpl in *.
  - done.
  - injection H as H _. destruct Ha'. by left.
  - injection H as H _. destruct Ha. by left.
  - injection H as -> H. f_equal. apply (IH a' s s'); [tauto..|done].
Qed.

Lemma id_position_inj prefix (p q i j : nat) :
  prefix +:+ Py.str p +:+ "_" +:+ Py.str i
  = prefix +:+ Py.str q +:+ "_" +:+ Py.str j → p = q.
Proof.
  intros H. apply (inj (String.append prefix)) in H.
  apply app_underscore_inj in H; [|apply str_no_underscore..].
  by apply (inj pretty) in H.
Qed.

(** X12: [curate] names a new item after its position in the list and its
    index in the loop, the position being [len(current_context)] at the
    time of the append: "insight_<position>_<index>" and
    "strategy_<position>_<index>".  So the ids handed out within one call
    are pairwise distinct. *)
Theorem curate_new_ids current_context new_insights reflections w :
  let r := DeepSeekCurator.curate current_context new_insights reflections w in
  let a := next_loc w in
  let n := length current_context in
  let ki := length new_insights in
  let kr := length (recommendations reflections) in
  drop n r.1 = seq a (ki + kr)
  ∧ (∀ k, k < ki →
       ContextItem.id (heap r.2 (a + k))
       = "insight_" +:+ Py.str (n + k) +:+ "_" +:+ Py.str k)
  ∧ (∀ k, k < kr →
       ContextItem.id (heap r.2 (a + ki + k))
       = "strategy_" +:+ Py.str (n + ki + k) +:+ "_" +:+ Py.str k)
  ∧ NoDup ((λ l, ContextItem.id (heap r.2 l)) <$> drop n r.1).
Proof.
  intros r a n ki kr.
  destruct (curate_result current_context new_insights reflections w)
    as [Hr _]. fold r a ki kr in Hr.
  assert (Hdrop : drop n r.1 = seq a (ki + kr)).
  { unfold n. rewrite Hr, drop_app_length. by rewrite seq_app. }
  assert (Hids : (∀ k, k < ki →
       ContextItem.id (heap r.2 (a + k))
       = "insight_" +:+ Py.str (n + k) +:+ "_" +:+ Py.str k)
    ∧ (∀ k, k < kr →
       ContextItem.id (heap r.2 (a + ki + k))
       = "strategy_" +:+ Py.str (n + ki + k) +:+ "_" +:+ Py.str k)).
  { clear Hr Hdrop. subst r a n ki kr. rewrite curate_unfold.
    set (r1 := for_enumerate 0 new_insights _ current_context w).
    set (r2 := for_enumerate 0 (recommendations reflections) _ r1.1 r1.2).
    destruct (add_items_spec "insight_" "insight" 0.8%float new_insights 0
                current_context w) as (Hl1 & Hn1 & _ & _ & _ & Hnew1).
    fold r1 in Hl1, Hn1, Hnew1.
    destruct (add_items_spec "strategy_" "strategy" 0.7%float
                (recommendations reflections) 0 r1.1 r1.2)
      as (_ & _ & _ & _ & Hold2 & Hnew2).
    fold r2 in Hold2, Hnew2. rewrite Hn1 in Hold2, Hnew2.
    assert (Hid : ∀ l,
      ContextItem.id (heap (r2.1,
        if bool_decide (failures reflections ≠ [])
        then (for_each r2.1 (λ context_item,
                update_effectiveness context_item false 0.5) r2.2).2
        else r2.2).2 l) = ContextItem.id (heap r2.2 l)).
    { intros l. cbn [snd]. destruct (bool_decide _); [|done].
      apply for_each_update_static. }
    split; intros k Hk; rewrite Hid.
    - destruct (lookup_lt_is_Some_2 new_insights k Hk) as [x Hx].
      rewrite Hold2 by lia. by rewrite (Hnew1 k x Hx).
    - destruct (lookup_lt_is_Some_2 (recommendations reflections) k Hk)
        as [x Hx].
      rewrite (Hnew2 k x Hx), Hl1, length_app, length_seq. done. }
  destruct Hids as [Hid1 Hid2]. split_and!; [done..|].
  rewrite Hdrop. apply NoDup_fmap_2_strong; [|apply NoDup_seq].
  intros x y Hx Hy Hxy. apply elem_of_seq in Hx, Hy.
  destruct (decide (x < a + ki)) as [Hx1|Hx1],
    (decide (y < a + ki)) as [Hy1|Hy1].
  - replace x with (a + (x - a)) in Hxy |- * by lia.
    replace y with (a + (y - a)) in Hxy |- * by lia.
    rewrite !Hid1 in Hxy by lia. apply id_position_inj in Hxy. lia.
  - replace x with (a + (x - a)) in Hxy by lia.
    replace y with (a + ki + (y - a - ki)) in Hxy by lia.
    rewrite Hid1, Hid2 in Hxy by lia. done.
  - replace x with (a + ki + (x - a - ki)) in Hxy by lia.
    replace y with (a + (y - a)) in Hxy by lia.
    rewrite Hid1, Hid2 in Hxy by lia. done.
  - replace x with (a + ki + (x - a - ki)) in Hxy |- * by lia.
    replace y with (a + ki + (y - a - ki)) in Hxy |- * by lia.
    rewrite !Hid2 in Hxy by lia. apply id_position_inj in Hxy. lia.
Qed.


(** ** The context summary *)

Lemma first_occurrences_snoc {A} `{EqDecision A} (l : list A) x :
  first_occurrences (l ++ [x])
  = if decide (x ∈ l) then first_occurrences l else first_occurrences l ++ [x].
Proof.
  unfold first_occurrences. rewrite reverse_snoc. simpl.
  destruct (decide_rel elem_of x (reverse l)) as [Hx|Hx];
    rewrite elem_of_reverse in Hx.
  - by rewrite decide_True.
  - by rewrite decide_False, reverse_cons.
Qed.

Lemma elem_of_first_occurrences {A} `{EqDecision A} (l : list A) x :
  x ∈ first_occurrences l ↔ x ∈ l.
Proof.
  unfold first_occurrences.
  by rewrite elem_of_reverse, elem_of_remove_dups, elem_of_reverse.
Qed.

Lemma NoDup_first_occurrences {A} `{EqDecision A} (l : list A) :
  NoDup (first_occurrences l).
Proof.
  unfold first_occurrences. rewrite reverse_Permutation.
  apply NoDup_remove_dups.
Qed.

Section dict_of_function.
Context {V : Type}.
Implicit Types (f g : string → V) (keys : list string).

(** The dict that maps each key of [keys] to its image under [f]. *)
Let tabulate f keys : PyDict.t V := (λ k, (k, f k)) <$> keys.

Lemma tabulate_contains f keys k :
  PyDict.contains k (tabulate f keys) = bool_decide (k ∈ keys).
Proof.
  unfold PyDict.contains, tabulate. rewrite <- list_fmap_compose.
  by rewrite list_fmap_id.
Qed.

Lemma tabulate_get f keys k :
  k ∈ keys → PyDict.get k (tabulate f keys) = Some (f k).
Proof.
  induction keys as [|k' keys IH]; [by intros ?%elem_of_nil|].
  intros Hk. simpl. destruct (decide (k' = k)) as [->|Hne]; [done|].
  apply IH. by apply elem_of_cons in Hk as [->|].
Qed.

Lemma tabulate_set_new f keys k v :
  k ∉ keys → f k = v →
  PyDict.set k v (tabulate f keys) = tabulate f (keys ++ [k]).
Proof.
  intros Hk <-. induction keys as [|k' keys IH]; [done|].
  apply not_elem_of_cons in Hk as [Hne Hk]. simpl.
  rewrite decide_False by done. f_equal. by apply IH.
Qed.

Lemma tabulate_set_old f g keys k :
  NoDup keys → k ∈ keys → (∀ k', k' ≠ k → g k' = f k') →
  PyDict.set k (g k) (tabulate f keys) = tabulate g keys.
Proof.
  intros Hnd Hk Hfg. induction Hnd as [|k' keys Hk' Hnd IH];
    [by apply elem_of_nil in Hk|].
  simpl. destruct (decide (k' = k)) as [->|Hne].
  - f_equal. apply list_fmap_ext. intros _ k' Hin%list_elem_of_lookup_2.
    simpl. rewrite Hfg; [done|]. by intros ->.
  - rewrite (Hfg k') by done. f_equal. apply IH.
    by apply elem_of_cons in Hk as [->|].
Qed.
End dict_of_function.

Lemma string_app_assoc (a b c : string) : (a +:+ b) +:+ c = a +:+ b +:+ c.
Proof.
  induction a as [|x a IH]; [done|].
  change (String x ((a +:+ b) +:+ c) = String x (a +:+ b +:+ c)).
  by f_equal.
Qed.

Lemma string_app_empty_r (s : string) : s +:+ "" = s.
Proof.
  induction s as [|c s IH]; [done|].
  change (String c (s +:+ "") = String c s). by f_equal.
Qed.

Lemma foldl_string_app {A} (f : A → string) (l : list A) : ∀ s,
  foldl (λ s x, s +:+ f x) s l = s +:+ foldr (λ x acc, f x +:+ acc) "" l.
Proof.
  induction l as [|x l IH]; intros s; simpl.
  - by rewrite string_app_empty_r.
  - by rewrite IH, string_app_assoc.
Qed.

(** One round of the grouping loop on a dict that tabulates [f]. *)
Lemma categories_step (f : string → list string) (keys : list string) c v :
  NoDup keys → (c ∉ keys → f c = []) →
  let categories : PyDict.t (list string) := (λ k, (k, f k)) <$> keys in
  let categories' :=
    if PyDict.contains c categories then categories
    else PyDict.set c [] categories in
  match PyDict.get c categories' with
  | Some items => PyDict.set c (items ++ [v]) categories'
  | None => categories'
  end
  = (λ k, (k, f k ++ if decide (c = k) then [v] else []))
      <$> (if decide (c ∈ keys) then keys else keys ++ [c]).
Proof.
  intros Hnd Hf categories categories'. subst categories categories'.
  rewrite tabulate_contains.
  set (g := λ k, f k ++ if decide (c = k) then [v] else []).
  assert (Hg : g c = f c ++ [v]) by (unfold g; by rewrite decide_True).
  assert (Hfg : ∀ k, k ≠ c → g k = f k).
  { intros k Hk. unfold g. by rewrite decide_False, app_nil_r. }
  destruct (decide (c ∈ keys)) as [Hin|Hout].
  - rewrite bool_decide_eq_true_2, tabulate_get, <- Hg by done.
    by apply tabulate_set_old.
  - rewrite bool_decide_eq_false_2 by done.
    rewrite tabulate_set_new by auto.
    rewrite tabulate_get, <- Hg by (apply elem_of_app; right; left).
    apply tabulate_set_old; [|apply elem_of_app; right; left|done].
    apply NoDup_app. split_and!; [done| |apply NoDup_singleton].
    by intros k Hk ->%list_elem_of_singleton.
Qed.

(** The grouping loop, characterised: one entry per category, in the
    order in which the categories first occur, holding the contents of
    the items of that category in their order. *)
Lemma categories_of_spec context w :
  DeepSeekGenerator.categories_of context w
  = (λ c, (c, (λ item, ContextItem.content (heap w item))
                <$> filter (λ item, ContextItem.category (heap w item) = c)
                      context))
      <$> first_occurrences ((λ item, ContextItem.category (heap w item))
                               <$> context).
Proof.
  unfold DeepSeekGenerator.categories_of.
  induction context as [|x context IH] using rev_ind; [done|].
  rewrite foldl_snoc, IH. clear IH. cbv beta zeta.
  rewrite categories_step.
  - rewrite fmap_snoc, first_occurrences_snoc.
    rewrite (decide_ext _ _ _ _ (elem_of_first_occurrences _ _)).
    apply list_fmap_ext. intros _ k _. simpl. f_equal.
    rewrite filter_app, fmap_app. f_equal.
    rewrite (filter_cons _ x). by destruct (decide _).
  - apply NoDup_first_occurrences.
  - intros Hout.
    destruct (filter _ context) as [|y l] eqn:E; [done|].
    assert (Hy : y ∈ filter (λ item, ContextItem.category (heap w item)
                                     = ContextItem.category (heap w x)) context)
      by (rewrite E; left).
    apply list_elem_of_filter in Hy as [Hc Hy]. destruct Hout.
    apply elem_of_first_occurrences, list_elem_of_fmap. eauto.
Qed.

(** X13: [_build_context_summary] answers the fixed sentence for an empty
    context; otherwise the summary is the heading followed by one block
    per category, in the order in which the categories first occur in the
    context, and a block is the upper-cased category followed by the
    contents of the first five items of that category, in the order of
    the context.  Nothing is modified. *)
Theorem build_context_summary_spec upper context w :
  let category item := ContextItem.category (heap w item) in
  let content item := ContextItem.content (heap w item) in
  let block c :=
    (nl +:+ upper c +:+ ":" +:+ nl)
    +:+ foldr (λ item acc, ("  - " +:+ content item +:+ nl) +:+ acc) ""
          (take 5 (filter (λ item, category item = c) context)) in
  (DeepSeekGenerator._build_context_summary upper context w).1
  = (if bool_decide (context = [])
     then "No prior knowledge available. Starting fresh."
     else ("Previous Learnings:" +:+ nl)
          +:+ foldr (λ c acc, block c +:+ acc) ""
                (first_occurrences (category <$> context)))
  ∧ (DeepSeekGenerator._build_context_summary upper context w).2 = w.
Proof.
  intros category content block.
  unfold DeepSeekGenerator._build_context_summary.
  destruct (bool_decide (context = [])); [done|]. split; [|done].
  cbn [fst]. rewrite categories_of_spec. fold category content.
  generalize (first_occurrences (category <$> context)) as keys.
  generalize ("Previous Learnings:" +:+ nl) as s.
  intros s keys. revert s.
  induction keys as [|c keys IH]; intros s; simpl.
  - by rewrite string_app_empty_r.
  - rewrite IH. clear IH.
    rewrite (foldl_string_app (λ item, "  - " +:+ item +:+ nl)).
    rewrite <- fmap_take, foldr_fmap.
    unfold block. by rewrite !string_app_assoc.
Qed.

(** ** The JSON array in a reply *)

Lemma occurs_app c a b : occurs c (a +:+ b) ↔ occurs c a ∨ occurs c b.
Proof.
  induction a as [|x a IH]; [simpl; tauto|].
  change (x = c ∨ occurs c (a +:+ b) ↔ (x = c ∨ occurs c a) ∨ occurs c b).
  tauto.
Qed.

Lemma find_nonneg_or_absent c s :
  (PyStr.find c s = -1 ∧ ¬ occurs c s)%Z
  ∨ ∃ pre post, s = pre +:+ String c post ∧ ¬ occurs c pre
      ∧ PyStr.find c s = Z.of_nat (String.length pre).
Proof.
  induction s as [|x s IH]; [left; simpl; tauto|]. simpl.
  destruct (decide (x = c)) as [->|Hne].
  { right. exists "", s. simpl. tauto. }
  destruct IH as [[-> Hs]|(pre & post & -> & Hpre & ->)].
  - left. rewrite decide_True by done. tauto.
  - right. exists (String x pre), post. rewrite decide_False by lia.
    split_and!; [done|simpl; tauto|simpl; lia].
Qed.

Lemma rfind_nonneg_or_absent c s :
  (PyStr.rfind c s = -1 ∧ ¬ occurs c s)%Z
  ∨ ∃ pre post, s = pre +:+ String c post ∧ ¬ occurs c post
      ∧ PyStr.rfind c s = Z.of_nat (String.length pre).
Proof.
  induction s as [|x s IH]; [left; simpl; tauto|]. simpl.
  destruct IH as [[-> Hs]|(pre & post & -> & Hpost & ->)].
  - rewrite decide_True by done. destruct (decide (x = c)) as [->|Hne].
    + right. exists "", s. simpl. tauto.
    + left. tauto.
  - right. exists (String x pre), post. rewrite decide_False by lia.
    split_and!; [done..|simpl; lia].
Qed.

Lemma find_app c pre post :
  ¬ occurs c pre →
  PyStr.find c (pre +:+ String c post) = Z.of_nat (String.length pre).
Proof.
  intros Hpre.
  destruct (find_nonneg_or_absent c (pre +:+ String c post))
    as [[_ Hn]|(pre' & post' & Heq & Hpre' & ->)].
  { destruct Hn. apply occurs_app. right. by left. }
  f_equal. f_equal. revert pre' Heq Hpre Hpre'.
  induction pre as [|x pre IH]; intros [|x' pre'] Heq Hpre Hpre'; simpl in *.
  - done.
  - injection Heq as <- _. tauto.
  - injection Heq as -> _. tauto.
  - injection Heq as -> Heq. f_equal. apply IH; [done|tauto..].
Qed.

Lemma rfind_app c pre post :
  ¬ occurs c post →
  PyStr.rfind c (pre +:+ String c post) = Z.of_nat (String.length pre).
Proof.
  intros Hpost. induction pre as [|x pre IH].
  - simpl. destruct (rfind_nonneg_or_absent c post)
      as [[-> _]|(pre' & post' & -> & _)].
    + by rewrite decide_True, decide_True.
    + destruct Hpost. apply occurs_app. right. by left.
  - change (PyStr.rfind c (String x pre +:+ String c post))
      with (let r := PyStr.rfind c (pre +:+ String c post) in
            if decide (r = -1)%Z then (if decide (x = c) then 0 else -1)%Z
            else (r + 1)%Z).
    rewrite IH. cbv zeta. rewrite decide_False by lia. simpl. lia.
Qed.

Lemma substring_app_exact (pre mid post : string) :
  String.substring (String.length pre) (String.length mid) (pre +:+ mid +:+ post)
  = mid.
Proof.
  induction pre as [|x pre IH]; [|exact IH].
  simpl. induction mid as [|y mid IHm]; [by destruct post|].
  change (String y (String.substring 0 (String.length mid) (mid +:+ post))
          = String y mid). by f_equal.
Qed.

Lemma string_length_app (a b : string) :
  String.length (a +:+ b) = String.length a + String.length b.
Proof.
  induction a as [|x a IH]; [done|].
  change (S (String.length (a +:+ b)) = S (String.length a + String.length b)).
  by f_equal.
Qed.

(** An occurrence of [c] that starts no later than an occurrence of [d]
    ends, for distinct characters, strictly before it. *)
Lemma split_between c d pre1 : ∀ post1 pre2 post2,
  c ≠ d →
  pre1 +:+ String c post1 = pre2 +:+ String d post2 →
  String.length pre1 ≤ String.length pre2 →
  ∃ mid, pre2 = pre1 +:+ String c mid ∧ post1 = mid +:+ String d post2.
Proof.
  induction pre1 as [|x pre1 IH]; intros post1 [|y pre2] post2 Hcd Heq Hlen;
    simpl in *.
  - injection Heq as ? _. done.
  - injection Heq as <- Heq. by exists pre2.
  - lia.
  - injection Heq as <- Heq.
    destruct (IH post1 pre2 post2 Hcd Heq) as (mid & -> & ->); [lia|].
    by exists mid.
Qed.

(** X14: [_parse_json_response] hands the decoder the text from the first
    "[" of the reply through its last "]": a reply without a "[" that is
    followed somewhere by a "]" yields the empty list without decoding,
    and otherwise the result is the decoder's, on exactly that text. *)
Theorem parse_json_response_spec {Any} (json_loads : string → option Any)
    (as_list : Any → option (list Any)) (str : Any → string) response :
  let decoded json_str :=
    data ← json_loads json_str;
    match as_list data with
    | Some items => Some (str <$> items)
    | None => Some []
    end in
  ((∀ pre mid post, response ≠ pre +:+ "[" +:+ mid +:+ "]" +:+ post) →
   DeepSeekGenerator._parse_json_response json_loads as_list str response = Some [])
  ∧ (∀ pre mid post,
       response = pre +:+ "[" +:+ mid +:+ "]" +:+ post →
       ¬ occurs "[" pre → ¬ occurs "]" post →
       DeepSeekGenerator._parse_json_response json_loads as_list str response
       = decoded ("[" +:+ mid +:+ "]")).
Proof.
  intros decoded. unfold DeepSeekGenerator._parse_json_response. split.
  - intros Hno.
    destruct (find_nonneg_or_absent "[" response)
      as [[-> _]|(pre1 & post1 & Hr1 & _ & ->)]; [done|].
    destruct (rfind_nonneg_or_absent "]" response)
      as [[-> _]|(pre2 & post2 & Hr2 & _ & ->)].
    { rewrite (bool_decide_eq_false_2 (_ < _)%Z) by lia.
      by rewrite andb_false_r. }
    destruct (decide (String.length pre1 ≤ String.length pre2)) as [Hle|Hgt].
    + destruct (split_between "[" "]" pre1 post1 pre2 post2) as (mid & -> & ->);
        [done|congruence|done|].
      destruct (Hno pre1 mid post2). by rewrite Hr1.
    + rewrite (bool_decide_eq_false_2 (_ < _)%Z) by lia.
      by rewrite andb_false_r.
  - intros pre mid post -> Hpre Hpost.
    set (body := String "[" (mid +:+ "]")).
    change (decoded ("[" +:+ mid +:+ "]")) with (decoded body).
    change (pre +:+ "[" +:+ mid +:+ "]" +:+ post)
      with (pre +:+ String "[" (mid +:+ String "]" post)).
    rewrite find_app by done.
    assert (Hlast : pre +:+ String "[" (mid +:+ String "]" post)
                    = (pre +:+ String "[" mid) +:+ String "]" post)
      by by rewrite string_app_assoc.
    rewrite (f_equal (PyStr.rfind "]") Hlast), rfind_app by done.
    assert (Hbody : pre +:+ String "[" (mid +:+ String "]" post)
                    = pre +:+ body +:+ post).
    { unfold body. f_equal.
      change (String "[" (mid +:+ String "]" post)
              = String "[" ((mid +:+ "]") +:+ post)).
      by rewrite string_app_assoc. }
    assert (Hlen : String.length body = S (S (String.length mid))).
    { unfold body. simpl. rewrite string_length_app. simpl. lia. }
    rewrite string_length_app. simpl String.length.
    rewrite !bool_decide_eq_true_2 by lia.
    cbn [andb]. unfold PyStr.slice.
    rewrite Nat2Z.id.
    replace (Z.to_nat _) with (String.length body) by lia.
    by rewrite Hbody, substring_app_exact.
Qed.
